(** * WASM-Injection-Framework: the staged-pipeline orchestrator

    A shallow embedding of the Go sources [types.go], the runtime
    boundary and file processor ([processWasmFileWithRuntime]), the
    batch runner of [main_stub.go] ([collectWasmFiles],
    [runFuzzerWithRuntime]) and the WasmEdge pipeline of [main.go]
    ([processWasmFile], [runFuzzer]).

    Conventions.
    - A Go call either returns or panics: [outcome].  The module declares
      [go 1.21], so [panic(nil)] reaches [recover] as a non-nil
      [*runtime.PanicNilError]; a [panic_value] is therefore never nil.
    - The runtime behind the [WasmRuntime] interface is an arbitrary,
      possibly stateful, Go object: its methods are functions of an
      explicit state [W] that they may change.
    - Every call made across the runtime boundary is written to a trace,
      and changes the state [W]: "Close is called exactly once" is
      stated on both.
    - An [error] interface that holds a nil [*RuntimeError] is not nil:
      it is a value of [error] of its own, on which [errors.As]
      succeeds and a field read panics.
    - Go's [int] counters are modelled in [Z]; they are bounded by the
      length of a slice, hence never wrap. *)

From Stdlib Require Import ZArith Lia Ascii String.
From stdpp Require Import base option list strings gmap fin_maps.

Local Open Scope Z_scope.

(* ===================================================================== *)
(** ** types.go *)
(* ===================================================================== *)

(** [type FailureStage string]: any string is a value of the type; five
    of them are named. *)
Definition FailureStage : Type := string.

Definition StageNone        : FailureStage := "none".
Definition StageLoad        : FailureStage := "load".
Definition StageValidate    : FailureStage := "validate".
Definition StageInstantiate : FailureStage := "instantiate".
Definition StageExecute     : FailureStage := "execute".

(** The dynamic values that cross the runtime boundary as [interface{}]. *)
Inductive value : Type :=
  | int32 (n : Z)
  | int64 (n : Z)
  | float32 (bits : Z)
  | float64 (bits : Z).

(** [ExecutionResult].  A Go slice of length 0 (nil or not) is the empty
    list: [omitempty] and element-wise comparison see no difference. *)
Module ExecutionResult.
Record t : Type := mk {
  FilePath     : string;
  FileName     : string;
  Success      : bool;
  FailureStage : FailureStage;
  ErrorMessage : string;
  ReturnValues : list value
}.

(** The zero value of the struct. *)
Definition zero : t := mk "" "" false "" "" [].

Definition set_FilePath (x : string) (r : t) : t :=
  mk x (FileName r) (Success r) (FailureStage r) (ErrorMessage r) (ReturnValues r).
Definition set_FileName (x : string) (r : t) : t :=
  mk (FilePath r) x (Success r) (FailureStage r) (ErrorMessage r) (ReturnValues r).
Definition set_Success (x : bool) (r : t) : t :=
  mk (FilePath r) (FileName r) x (FailureStage r) (ErrorMessage r) (ReturnValues r).
Definition set_FailureStage (x : string) (r : t) : t :=
  mk (FilePath r) (FileName r) (Success r) x (ErrorMessage r) (ReturnValues r).
Definition set_ErrorMessage (x : string) (r : t) : t :=
  mk (FilePath r) (FileName r) (Success r) (FailureStage r) x (ReturnValues r).
Definition set_ReturnValues (x : list value) (r : t) : t :=
  mk (FilePath r) (FileName r) (Success r) (FailureStage r) (ErrorMessage r) x.

(** The JSON tags [error_message,omitempty] and
    [return_values,omitempty]: the key is written iff the field is not
    empty. *)
Definition error_message_present (r : t) : bool :=
  negb (String.eqb (ErrorMessage r) "").
End ExecutionResult.

Module ER := ExecutionResult.

(** [FuzzingReport]. *)
Record FuzzingReport : Type := mkReport {
  TotalFiles    : Z;
  Passed        : Z;
  Failed        : Z;
  Results       : list ER.t;
  FailureCounts : gmap string Z
}.

(* ===================================================================== *)
(** ** Errors *)
(* ===================================================================== *)

(** Non-nil [error] interface values, as the repository builds them:
    [errors.New]; a [*RuntimeError], which is a pointer to a struct
    ([RuntimeError_ptr]) or the nil pointer ([RuntimeError_nil]: an
    interface that holds a nil [*RuntimeError] is not the nil
    interface, and passes every [err != nil]); and
    [fmt.Errorf(prefix + "%w", inner)].  Errors of other packages count
    as [errors_New] of their text.  The nil interface is [None] of
    [option error]. *)
Inductive error : Type :=
  | errors_New (text : string)
  | RuntimeError_ptr (e : RuntimeError)
  | RuntimeError_nil
  | fmt_Errorf_w (prefix : string) (inner : error)
with RuntimeError : Type :=
  | mkRuntimeError (Stage : FailureStage) (Message : string) (Cause : option error).

Definition Stage (e : RuntimeError) : FailureStage :=
  match e with mkRuntimeError s _ _ => s end.
Definition Message (e : RuntimeError) : string :=
  match e with mkRuntimeError _ m _ => m end.
Definition Cause (e : RuntimeError) : option error :=
  match e with mkRuntimeError _ _ c => c end.

(** The text of an error, as [fmt] prints it under [%v] and [%w]: what
    its [Error() string] method returns.  For a [*RuntimeError] that is
    the method of the source: "%s: %s: %v" with a cause, "%s: %s"
    without.  On the nil [*RuntimeError] the method panics (it reads
    [e.Cause]); [fmt] catches the panic of a nil receiver and prints
    "<nil>". *)
Fixpoint Error (err : error) : string :=
  match err with
  | errors_New text => text
  | RuntimeError_ptr (mkRuntimeError stage message cause) =>
      match cause with
      | Some c => stage +:+ ": " +:+ message +:+ ": " +:+ Error c
      | None => stage +:+ ": " +:+ message
      end
  | RuntimeError_nil => "<nil>"
  | fmt_Errorf_w prefix inner => prefix +:+ Error inner
  end.

(** [errors.As(err, &runtimeErr)] with [runtimeErr : *RuntimeError]:
    [None] when it returns false; otherwise the pointer it stores in
    [runtimeErr], the first value of type [*RuntimeError] on the
    [Unwrap] chain.  The test is on the type alone, so the pointer
    stored may be nil ([Some None]).  [*RuntimeError] has no [Unwrap]
    method, so its [Cause] is never searched. *)
Fixpoint errors_As (err : error) : option (option RuntimeError) :=
  match err with
  | errors_New _ => None
  | RuntimeError_ptr e => Some (Some e)
  | RuntimeError_nil => Some None
  | fmt_Errorf_w _ inner => errors_As inner
  end.

(* ===================================================================== *)
(** ** Panics, outcomes, deferred calls *)
(* ===================================================================== *)

(** The argument of [panic], by what [%v] prints for it. *)
Inductive panic_value : Type :=
  | PanicString (s : string)
  | PanicError (e : error)
  | PanicOther (printed : string).

Definition fmt_v (v : panic_value) : string :=
  match v with
  | PanicString s => s
  | PanicError e => Error e
  | PanicOther printed => printed
  end.

(** The run-time panic of a method call through a nil interface, and of
    a field read through a nil pointer. *)
Definition nil_dereference : panic_value :=
  PanicError (errors_New "runtime error: invalid memory address or nil pointer dereference").

Inductive outcome (A : Type) : Type :=
  | Returned (a : A)
  | Panicked (v : panic_value).
Arguments Returned {A} a.
Arguments Panicked {A} v.

(** A direct call [err.Error()]: on the nil [*RuntimeError] the method
    panics, no [fmt] being there to catch it. *)
Definition Error_method (err : error) : outcome string :=
  match err with
  | RuntimeError_nil => Panicked nil_dereference
  | _ => Returned (Error err)
  end.

(** One line of the trace: a call across the boundary; a panic raised
    (by the call just made, or by the Go runtime); a [recover()] that
    returned the value of a panic. *)
Inductive entry (E : Type) : Type :=
  | Call (e : E)
  | Raised (v : panic_value)
  | Recovered (v : panic_value).
Arguments Call {E} e.
Arguments Raised {E} v.
Arguments Recovered {E} v.

Section Frames.
Context {W E : Type}.

(** What a [defer] statement pushes: the recovery closure of the two
    processors, or a call that releases a resource. *)
Inductive deferred : Type :=
  | DeferRecover
  | DeferCall (label : E) (call : W → outcome unit * W).

(** The body of the recovery closure:
    [if r := recover(); r != nil { ... }]. *)
Definition recover_handler (v : panic_value) (result : ER.t) : ER.t :=
  ER.set_ErrorMessage ("panic recovered: " +:+ fmt_v v)
    (ER.set_FailureStage StageExecute
      (ER.set_Success false result)).

(** Run the deferred calls, last pushed first (the head of the list).
    [panicking] is the panic in flight, if any.  A deferred call that
    panics replaces it and the remaining deferred calls still run;
    [recover()] stops it. *)
Fixpoint run_defers (ds : list deferred) (panicking : option panic_value)
    (result : ER.t) (w : W) : option panic_value * ER.t * W * list (entry E) :=
  match ds with
  | [] => (panicking, result, w, [])
  | DeferRecover :: ds' =>
      match panicking with
      | Some v =>
          let '(p, r, w', tr) := run_defers ds' None (recover_handler v result) w in
          (p, r, w', Recovered v :: tr)
      | None => run_defers ds' None result w
      end
  | DeferCall label call :: ds' =>
      match call w with
      | (Returned _, w1) =>
          let '(p, r, w', tr) := run_defers ds' panicking result w1 in
          (p, r, w', Call label :: tr)
      | (Panicked v, w1) =>
          let '(p, r, w', tr) := run_defers ds' (Some v) result w1 in
          (p, r, w', Call label :: Raised v :: tr)
      end
  end.

(** A function with the named result [result]: the body ran to a
    [return] ([None]) or panicked ([Some v]), having pushed [ds]; then
    the deferred calls run and the caller sees the outcome. *)
Definition leave (body : option panic_value * ER.t * list deferred * W * list (entry E))
    : outcome ER.t * W * list (entry E) :=
  let '(panicking, result, ds, w, tr) := body in
  let '(p, r, w', tr') := run_defers ds panicking result w in
  (match p with None => Returned r | Some v => Panicked v end, w', tr ++ tr').
End Frames.
Arguments deferred : clear implicits.

(* ===================================================================== *)
(** ** path/filepath (Unix separators) *)
(* ===================================================================== *)

Definition IsPathSeparator (c : Ascii.ascii) : bool := Ascii.eqb c "/"%char.

(** [filepath.Ext]:
    [for i := len(path)-1; i >= 0 && !IsPathSeparator(path[i]); i--]
    returning [path[i:]] at the first dot met.  [n] is [i+1]. *)
Fixpoint Ext_loop (path : string) (n : nat) : string :=
  match n with
  | O => ""
  | S i =>
      match String.get i path with
      | Some c =>
          if IsPathSeparator c then ""
          else if Ascii.eqb c "."%char
               then String.substring i (String.length path - i) path
               else Ext_loop path i
      | None => ""
      end
  end.

Definition filepath_Ext (path : string) : string :=
  Ext_loop path (String.length path).

(** [filepath.Base]: strip the trailing separators, keep what follows the
    last separator left; "." for the empty path, "/" for separators only. *)
Fixpoint strip_trailing (path : string) (n : nat) : string :=
  match n with
  | O => ""
  | S i =>
      match String.get i path with
      | Some c => if IsPathSeparator c then strip_trailing path i
                  else String.substring 0 n path
      | None => ""
      end
  end.

Fixpoint last_element_start (path : string) (n : nat) : nat :=
  match n with
  | O => O
  | S i =>
      match String.get i path with
      | Some c => if IsPathSeparator c then n else last_element_start path i
      | None => O
      end
  end.

Definition filepath_Base (path : string) : string :=
  if String.eqb path "" then "."
  else
    let path := strip_trailing path (String.length path) in
    let i := last_element_start path (String.length path) in
    let path := String.substring i (String.length path - i) path in
    if String.eqb path "" then "/" else path.

(* ===================================================================== *)
(** ** The runtime boundary and the file processor *)
(* ===================================================================== *)

(** The interfaces [WasmRuntime] and [WasmModule].  [M] is the type of
    the module objects behind a non-nil [WasmModule]; [LoadModule]
    returns the pair [(WasmModule, error)], either of which may be nil.
    Every method may panic and may change the state of the runtime. *)
Record WasmRuntime (W M : Type) : Type := mkRuntime {
  LoadModule : string → W → outcome (option M * option error) * W;
  Execute    : M → string → list value → W → outcome (list value * option error) * W;
  Close      : M → W → outcome unit * W
}.
Arguments LoadModule {W M} _ _ _.
Arguments Execute {W M} _ _ _ _ _.
Arguments Close {W M} _ _ _.

(** The calls [processWasmFileWithRuntime] makes on the runtime. *)
Inductive boundary_call (M : Type) : Type :=
  | CallLoadModule (filePath : string)
  | CallExecute (m : M) (funcName : string) (args : list value)
  | CallClose (m : M).
Arguments CallLoadModule {M} filePath.
Arguments CallExecute {M} m funcName args.
Arguments CallClose {M} m.

Section FileProcessor.
Context {W M : Type} (runtime : WasmRuntime W M).

Abbreviation trace := (list (entry (boundary_call M))).

(** The classification written twice in the source, after
    [result.Success = false]:
    [if errors.As(err, &runtimeErr) { result.FailureStage =
    runtimeErr.Stage; result.ErrorMessage = runtimeErr.Message } else
    { nominal stage; fmt.Sprintf(prefix + "%v", err) }].
    When [errors.As] stores a nil pointer, reading [runtimeErr.Stage]
    panics, with [result] as it is then.  The first component is the
    panic raised, if any. *)
Definition classify (nominal : FailureStage) (prefix : string) (err : error)
    (result : ER.t) : option panic_value * ER.t :=
  let result := ER.set_Success false result in
  match errors_As err with
  | Some (Some runtimeErr) =>
      (None, ER.set_ErrorMessage (Message runtimeErr)
               (ER.set_FailureStage (Stage runtimeErr) result))
  | Some None => (Some nil_dereference, result)
  | None =>
      (None, ER.set_ErrorMessage (prefix +:+ Error err)
               (ER.set_FailureStage nominal result))
  end.

(** The trace of a panic raised by the Go runtime or by a call. *)
Definition raise_entry {E : Type} (p : option panic_value) : list (entry E) :=
  match p with
  | Some v => [Raised v]
  | None => []
  end.

(** [result] after the first three assignments. *)
Definition entry_result (filePath : string) : ER.t :=
  ER.set_FailureStage StageNone
    (ER.set_FileName (filepath_Base filePath)
      (ER.set_FilePath filePath ER.zero)).

(** The body of [processWasmFileWithRuntime] up to its [return] or its
    panic: the state of [result], the deferred calls pushed so far
    (last first), the runtime state and the calls made. *)
Definition processWasmFileWithRuntime_body (filePath : string) (w : W)
    : option panic_value * ER.t * list (deferred W (boundary_call M)) * W * trace :=
  let result := entry_result filePath in
  let ds := [DeferRecover] in
  match LoadModule runtime filePath w with
  | (Panicked v, w1) =>
      (Some v, result, ds, w1, [Call (CallLoadModule filePath); Raised v])
  | (Returned (_, Some err), w1) =>
      let '(p, result) := classify StageLoad "load failed: " err result in
      (p, result, ds, w1, Call (CallLoadModule filePath) :: raise_entry p)
  | (Returned (None, None), w1) =>
      (* defer module.Close() on a nil interface *)
      (Some nil_dereference, result, ds, w1,
       [Call (CallLoadModule filePath); Raised nil_dereference])
  | (Returned (Some module, None), w1) =>
      let ds := DeferCall (CallClose module) (Close runtime module) :: ds in
      let args := [int32 1] in
      let tr := [Call (CallLoadModule filePath); Call (CallExecute module "process" args)] in
      match Execute runtime module "process" args w1 with
      | (Panicked v, w2) => (Some v, result, ds, w2, tr ++ [Raised v])
      | (Returned (_, Some err), w2) =>
          let '(p, result) := classify StageExecute "execution failed: " err result in
          (p, result, ds, w2, tr ++ raise_entry p)
      | (Returned (returns, None), w2) =>
          (None, ER.set_ReturnValues returns (ER.set_Success true result), ds, w2, tr)
      end
  end.

Definition processWasmFileWithRuntime (filePath : string) (w : W)
    : outcome ER.t * W * trace :=
  leave (processWasmFileWithRuntime_body filePath w).
End FileProcessor.

(* ===================================================================== *)
(** ** Function bodies as a small monad *)
(* ===================================================================== *)

(** [processWasmFile] threads its named result, its deferred calls and
    the state of the engine through fourteen calls, each of which may
    panic, with four early returns.  Its body is written in a monad whose
    state is the frame of the function and whose computations continue,
    return, or panic. *)
Inductive flow (A : Type) : Type :=
  | Next (a : A)
  | Return
  | Panic (v : panic_value).
Arguments Next {A} a.
Arguments Return {A}.
Arguments Panic {A} v.

Section Body.
Context {W E : Type}.

Record frame : Type := mkFrame {
  fr_result : ER.t;
  fr_defers : list (deferred W E);
  fr_world  : W;
  fr_trace  : list (entry E)
}.

Definition body (A : Type) : Type := frame → flow A * frame.

#[export] Instance body_ret : MRet body := λ A a fr, (Next a, fr).

#[export] Instance body_bind : MBind body := λ A B k m fr,
  match m fr with
  | (Next a, fr') => k a fr'
  | (Return, fr') => (Return, fr')
  | (Panic v, fr') => (Panic v, fr')
  end.

(** A call into the engine. *)
Definition call {A : Type} (label : E) (f : W → outcome A * W) : body A :=
  λ fr,
    let fr' w tr := mkFrame (fr_result fr) (fr_defers fr) w (fr_trace fr ++ tr) in
    match f (fr_world fr) with
    | (Returned a, w) => (Next a, fr' w [Call label])
    | (Panicked v, w) => (Panic v, fr' w [Call label; Raised v])
    end.

(** [defer d]. *)
Definition defer (d : deferred W E) : body unit :=
  λ fr, (Next (), mkFrame (fr_result fr) (d :: fr_defers fr) (fr_world fr) (fr_trace fr)).

(** An assignment to a field of [result]. *)
Definition assign (f : ER.t → ER.t) : body unit :=
  λ fr, (Next (), mkFrame (f (fr_result fr)) (fr_defers fr) (fr_world fr) (fr_trace fr)).

(** [return result]. *)
Definition return_result {A : Type} : body A := λ fr, (Return, fr).

(** Call the function: run its body from the zero value of [result],
    then its deferred calls. *)
Definition run_function (b : body unit) (w : W) : outcome ER.t * W * list (entry E) :=
  let '(fl, fr) := b (mkFrame ER.zero [] w []) in
  leave (match fl with Panic v => Some v | _ => None end,
         fr_result fr, fr_defers fr, fr_world fr, fr_trace fr).
End Body.
Arguments frame : clear implicits.
Arguments body : clear implicits.

(* ===================================================================== *)
(** ** main.go: the WasmEdge pipeline *)
(* ===================================================================== *)

(** The part of the WasmEdge Go SDK that [processWasmFile] calls.  The
    SDK is a cgo binding: each of its functions is taken as an arbitrary
    function of the engine state that returns or panics.  The object
    types are pointer types of the SDK, nil included. *)
Record WasmEdge (W : Type) : Type := mkWasmEdge {
  Configure : Type;
  Loader    : Type;
  AST       : Type;
  Validator : Type;
  Store     : Type;
  Executor  : Type;
  Module_   : Type;
  Function  : Type;
  NewConfigure      : W → outcome Configure * W;
  Configure_Release : Configure → W → outcome unit * W;
  NewLoader         : W → outcome Loader * W;
  Loader_Release    : Loader → W → outcome unit * W;
  Loader_LoadFile   : Loader → string → W → outcome (AST * option error) * W;
  AST_Release       : AST → W → outcome unit * W;
  NewValidator      : W → outcome Validator * W;
  Validator_Release : Validator → W → outcome unit * W;
  Validator_Validate : Validator → AST → W → outcome (option error) * W;
  NewStore          : W → outcome Store * W;
  Store_Release     : Store → W → outcome unit * W;
  NewExecutor       : W → outcome Executor * W;
  Executor_Release  : Executor → W → outcome unit * W;
  Executor_Instantiate : Executor → Store → AST → W → outcome (Module_ * option error) * W;
  Module_Release    : Module_ → W → outcome unit * W;
  Module_FindFunction : Module_ → string → W → outcome (option Function) * W;
  Executor_Invoke   : Executor → Function → list value → W → outcome (list value * option error) * W
}.

(** The SDK calls, as trace labels. *)
Inductive sdk_call : Type :=
  | SdkNewConfigure | SdkConfigureRelease
  | SdkNewLoader | SdkLoaderRelease | SdkLoadFile (filePath : string) | SdkASTRelease
  | SdkNewValidator | SdkValidatorRelease | SdkValidate
  | SdkNewStore | SdkStoreRelease
  | SdkNewExecutor | SdkExecutorRelease | SdkInstantiate | SdkModuleRelease
  | SdkFindFunction (name : string) | SdkInvoke (args : list value).

Section WasmEdgeProcessor.
Context {W : Type} (sdk : WasmEdge W).

(** The three assignments of every failing branch, then
    [return result]. *)
Definition fail_with (stage : FailureStage) (message : string) : body W sdk_call unit :=
  assign (ER.set_Success false);;
  assign (ER.set_FailureStage stage);;
  assign (ER.set_ErrorMessage message);;
  return_result.

(** The four stages, from [wasmedge.NewConfigure()] to the last
    [return result]. *)
Definition processWasmFile_stages (filePath : string) : body W sdk_call unit :=
  conf ← call SdkNewConfigure (NewConfigure W sdk);
  defer (DeferCall SdkConfigureRelease (Configure_Release W sdk conf));;
  (* Stage 1 *)
  loader ← call SdkNewLoader (NewLoader W sdk);
  defer (DeferCall SdkLoaderRelease (Loader_Release W sdk loader));;
  '(ast, err) ← call (SdkLoadFile filePath) (Loader_LoadFile W sdk loader filePath);
  match err with
  | Some e => fail_with StageLoad ("load failed: " +:+ Error e)
  | None => mret ()
  end;;
  defer (DeferCall SdkASTRelease (AST_Release W sdk ast));;
  (* Stage 2 *)
  validator ← call SdkNewValidator (NewValidator W sdk);
  defer (DeferCall SdkValidatorRelease (Validator_Release W sdk validator));;
  err ← call SdkValidate (Validator_Validate W sdk validator ast);
  match err with
  | Some e => fail_with StageValidate ("validation failed: " +:+ Error e)
  | None => mret ()
  end;;
  (* Stage 3 *)
  store ← call SdkNewStore (NewStore W sdk);
  defer (DeferCall SdkStoreRelease (Store_Release W sdk store));;
  executor ← call SdkNewExecutor (NewExecutor W sdk);
  defer (DeferCall SdkExecutorRelease (Executor_Release W sdk executor));;
  '(module, err) ← call SdkInstantiate (Executor_Instantiate W sdk executor store ast);
  match err with
  | Some e => fail_with StageInstantiate ("instantiation failed: " +:+ Error e)
  | None => mret ()
  end;;
  defer (DeferCall SdkModuleRelease (Module_Release W sdk module));;
  (* Stage 4 *)
  funcInstance ← call (SdkFindFunction "process") (Module_FindFunction W sdk module "process");
  match funcInstance with
  | None => fail_with StageExecute "function 'process' not found in module exports"
  | Some funcInstance =>
      '(returns, err) ← call (SdkInvoke [int32 1])
                          (Executor_Invoke W sdk executor funcInstance [int32 1]);
      match err with
      | Some e => fail_with StageExecute ("execution failed: " +:+ Error e)
      | None => mret ()
      end;;
      assign (ER.set_Success true);;
      (* make([]interface{}, len(returns)) filled index by index *)
      assign (ER.set_ReturnValues returns);;
      return_result
  end.

(** The prologue: the three assignments and the deferred recovery
    closure; then the stages. *)
Definition processWasmFile_body (filePath : string) : body W sdk_call unit :=
  assign (ER.set_FilePath filePath);;
  assign (ER.set_FileName (filepath_Base filePath));;
  assign (ER.set_FailureStage StageNone);;
  defer DeferRecover;;
  processWasmFile_stages filePath.

Definition processWasmFile (filePath : string) (w : W)
    : outcome ER.t * W * list (entry sdk_call) :=
  run_function (processWasmFile_body filePath) w.
End WasmEdgeProcessor.

(* ===================================================================== *)
(** ** main_stub.go / main.go: the batch runner *)
(* ===================================================================== *)

(** An [os.DirEntry], as far as [collectWasmFiles] looks at it. *)
Record DirEntry : Type := mkDirEntry {
  Name  : string;
  IsDir : bool
}.

Section BatchRunner.
(** The listing collaborator [os.ReadDir], which returns the entries
    and an error (nil or not), and [filepath.Join] of the standard
    library. *)
Context (os_ReadDir : string → list DirEntry * option error).
Context (filepath_Join : string → string → string).

(** The loop of [collectWasmFiles] over [entries]. *)
Fixpoint collect_loop (dirPath : string) (entries : list DirEntry) (files : list string)
    : list string :=
  match entries with
  | [] => files
  | entry :: entries' =>
      if IsDir entry then collect_loop dirPath entries' files
      else if String.eqb (filepath_Ext (Name entry)) ".wasm"
           then collect_loop dirPath entries' (files ++ [filepath_Join dirPath (Name entry)])
           else collect_loop dirPath entries' files
  end.

Definition collectWasmFiles (dirPath : string) : list string * option error :=
  match os_ReadDir dirPath with
  | (_, Some err) => ([], Some (fmt_Errorf_w "failed to read directory: " err))
  | (entries, None) => (collect_loop dirPath entries [], None)
  end.

(** [report.FailureCounts[stage]++]: a missing key reads as 0. *)
Definition increment (stage : FailureStage) (counts : gmap string Z) : gmap string Z :=
  <[stage := default 0 (counts !! stage) + 1]> counts.

(** The report before discovery: empty results, the four failure
    stages at zero. *)
Definition initial_report : FuzzingReport :=
  mkReport 0 0 0 []
    (<[StageExecute := 0]> (<[StageInstantiate := 0]>
      (<[StageValidate := 0]> (<[StageLoad := 0]> ∅)))).

(** One iteration of the processing loop, after the processor
    returned [result]. *)
Definition record_result (result : ER.t) (report : FuzzingReport) : FuzzingReport :=
  let results := Results report ++ [result] in
  if ER.Success result
  then mkReport (TotalFiles report) (Passed report + 1) (Failed report)
                results (FailureCounts report)
  else mkReport (TotalFiles report) (Passed report) (Failed report + 1)
                results (increment (ER.FailureStage result) (FailureCounts report)).

(** [runFuzzer] and [runFuzzerWithRuntime] are the same text but for
    the processor they call, [process] here.  Neither has a [recover]
    of its own: a panic of the processor would leave the loop and
    reach the caller. *)
Section Loop.
Context {W E : Type} (process : string → W → outcome ER.t * W * list (entry E)).

Fixpoint process_files (files : list string) (report : FuzzingReport) (w : W)
    : outcome FuzzingReport * W * list (entry E) :=
  match files with
  | [] => (Returned report, w, [])
  | filePath :: files' =>
      match process filePath w with
      | (Returned result, w1, tr1) =>
          let '(o, w2, tr2) := process_files files' (record_result result report) w1 in
          (o, w2, tr1 ++ tr2)
      | (Panicked v, w1, tr1) => (Panicked v, w1, tr1)
      end
  end.

Definition run_fuzzer (dirPath : string) (w : W)
    : outcome (FuzzingReport * option error) * W * list (entry E) :=
  let report := initial_report in
  match collectWasmFiles dirPath with
  | (_, Some err) => (Returned (report, Some err), w, [])
  | (files, None) =>
      let report := mkReport (Z.of_nat (length files)) (Passed report) (Failed report)
                             (Results report) (FailureCounts report) in
      match process_files files report w with
      | (Returned report, w', tr) => (Returned (report, None), w', tr)
      | (Panicked v, w', tr) => (Panicked v, w', tr)
      end
  end.
End Loop.

Definition runFuzzerWithRuntime {W M : Type} (dirPath : string) (runtime : WasmRuntime W M)
    (w : W) : outcome (FuzzingReport * option error) * W * list (entry (boundary_call M)) :=
  run_fuzzer (processWasmFileWithRuntime runtime) dirPath w.

Definition runFuzzer {W : Type} (sdk : WasmEdge W) (dirPath : string) (w : W)
    : outcome (FuzzingReport * option error) * W * list (entry sdk_call) :=
  run_fuzzer (processWasmFile sdk) dirPath w.
End BatchRunner.

(** The sum of the values of [FailureCounts]. *)
Definition sum_counts (counts : gmap string Z) : Z :=
  map_fold (λ _ n acc, n + acc) 0 counts.

(* ===================================================================== *)
(** ** Reading a trace *)
(* ===================================================================== *)

(** The values [recover()] returned, in order. *)
Definition recovered_values {E : Type} (tr : list (entry E)) : list panic_value :=
  omap (λ e, match e with Recovered v => Some v | _ => None end) tr.

(** The panics raised, in order. *)
Definition raised_values {E : Type} (tr : list (entry E)) : list panic_value :=
  omap (λ e, match e with Raised v => Some v | _ => None end) tr.

(** The calls made, in order. *)
Definition calls_made {E : Type} (tr : list (entry E)) : list E :=
  omap (λ e, match e with Call c => Some c | _ => None end) tr.

(** The modules [Close] was called on, in order. *)
Definition closed_modules {M : Type} (tr : list (entry (boundary_call M))) : list M :=
  omap (λ e, match e with Call (CallClose m) => Some m | _ => None end) tr.

(** The panic in flight after the events of [tr], [recover()] aside: the
    last one raised, [p] if none was. *)
Definition in_flight {E : Type} (p : option panic_value) (tr : list (entry E))
    : option panic_value :=
  match last (raised_values tr) with Some v => Some v | None => p end.

(** [result] after the recovery closure ran with [p] in flight. *)
Definition after_recovery (p : option panic_value) (result : ER.t) : ER.t :=
  match p with
  | Some v => recover_handler v result
  | None => result
  end.

Definition recovery_entry {E : Type} (p : option panic_value) : list (entry E) :=
  match p with
  | Some v => [Recovered v]
  | None => []
  end.

Definition is_release {W E : Type} (d : deferred W E) : Prop :=
  match d with
  | DeferCall _ _ => True
  | DeferRecover => False
  end.

(** The invariant of the data model: [success] iff [stage = none]. *)
Definition success_iff_none (r : ER.t) : Prop :=
  ER.Success r = true ↔ ER.FailureStage r = StageNone.

(* ===================================================================== *)
(** ** A test double *)
(* ===================================================================== *)

(** The test double of the fault-injection suite ([MockWasmRuntime],
    [MockWasmModule]), with scripted [LoadModule] and [Execute]; modules
    are numbered and the state of the double is the list of modules
    whose [Close] was called ([CloseCalled]).  [scripted_runtime] also
    scripts [Close]. *)
Definition scripted_runtime
    (LoadModuleFunc : string → outcome (option nat * option error))
    (ExecuteFunc : string → list value → outcome (list value * option error))
    (CloseFunc : outcome unit) : WasmRuntime (list nat) nat :=
  mkRuntime (list nat) nat
    (λ filePath w, (LoadModuleFunc filePath, w))
    (λ _ funcName args w, (ExecuteFunc funcName args, w))
    (λ m w, (CloseFunc, w ++ [m])).

Definition MockWasmRuntime
    (LoadModuleFunc : string → outcome (option nat * option error))
    (ExecuteFunc : string → list value → outcome (list value * option error))
    : WasmRuntime (list nat) nat :=
  scripted_runtime LoadModuleFunc ExecuteFunc (Returned ()).

(* ===================================================================== *)
(** ** Predicates used in the statements *)
(* ===================================================================== *)

(** The recovery closure was deferred first, releases only after it. *)
Fixpoint recover_deferred_first {W E : Type} (ds : list (deferred W E)) : Prop :=
  match ds with
  | [] => False
  | [DeferRecover] => True
  | DeferRecover :: _ => False
  | DeferCall _ _ :: ds' => recover_deferred_first ds'
  end.

(** A body that recovers nothing itself, stops at the panic it raises,
    and has deferred the recovery closure first. *)
Definition body_wf {W E : Type}
    (out : option panic_value * ER.t * list (deferred W E) * W * list (entry E)) : Prop :=
  let '(p, _, ds, _, tr) := out in
  recover_deferred_first ds ∧ recovered_values tr = [] ∧ p = in_flight None tr.

Definition flow_panic {A : Type} (fl : flow A) : option panic_value :=
  match fl with Panic v => Some v | _ => None end.

(** *** A small program logic for bodies

    [continuing fr]: what holds of the frame while the body of
    [processWasmFile] runs on after the prologue.  [exit_ok fl fr]: what
    holds when it stops, by [return] or by a panic. *)
Section BodyLogicDefinitions.
Context {W E : Type} (filePath : string).
Implicit Types (fr : frame W E).

Definition continuing fr : Prop :=
  recover_deferred_first (fr_defers fr)
  ∧ recovered_values (fr_trace fr) = []
  ∧ raised_values (fr_trace fr) = []
  ∧ ER.FilePath (fr_result fr) = filePath
  ∧ ER.FileName (fr_result fr) = filepath_Base filePath
  ∧ ER.FailureStage (fr_result fr) = StageNone.

Definition exit_ok {A : Type} (fl : flow A) fr : Prop :=
  body_wf (flow_panic fl, fr_result fr, fr_defers fr, fr_world fr, fr_trace fr)
  ∧ ER.FilePath (fr_result fr) = filePath
  ∧ ER.FileName (fr_result fr) = filepath_Base filePath
  ∧ (flow_panic fl = None → success_iff_none (fr_result fr)).

(** From a continuing frame, [m] either goes on to a frame that
    satisfies [Q], or stops well. *)
Definition triple {A : Type} (m : body W E A) (Q : frame W E → Prop) : Prop :=
  ∀ fr, continuing fr →
    match m fr with
    | (Next _, fr') => Q fr'
    | (fl, fr') => exit_ok fl fr'
    end.

(** [m] stops: it does not fall off its end. *)
Definition stops {A : Type} (m : body W E A) : Prop := triple m (λ _, False).
End BodyLogicDefinitions.

(** What the trace and the result of a processor show when every panic
    was contained: with no panic raised, no recovery; otherwise exactly
    one recovery, of the last panic raised, as the last event (nothing
    is raised after it), and the failure it is converted to. *)
Definition contained {E : Type} (result : ER.t) (tr : list (entry E)) : Prop :=
  match last (raised_values tr) with
  | None => recovered_values tr = []
  | Some v =>
      recovered_values tr = [v]
      ∧ last tr = Some (Recovered v)
      ∧ ER.Success result = false
      ∧ ER.FailureStage result = StageExecute
      ∧ ER.ErrorMessage result = "panic recovered: " +:+ fmt_v v
  end.

Definition panic_of {A : Type} (o : outcome A) : option panic_value :=
  match o with
  | Panicked v => Some v
  | Returned _ => None
  end.

Definition raised_by {A E : Type} (o : outcome A) : list (entry E) :=
  raise_entry (panic_of o).

(** The panic in flight and [result] when the body ends after the
    [Execute] call: the panic of [Execute], or the classification of
    the error it returned, which may panic, or the success. *)
Definition executed (filePath : string) (ex : outcome (list value * option error))
    : option panic_value * ER.t :=
  match ex with
  | Panicked v => (Some v, entry_result filePath)
  | Returned (_, Some err) =>
      classify StageExecute "execution failed: " err (entry_result filePath)
  | Returned (returns, None) =>
      (None, ER.set_ReturnValues returns (ER.set_Success true (entry_result filePath)))
  end.


(** The entries [collectWasmFiles] keeps: not a directory, and a name
    whose extension is ".wasm". *)
Definition is_candidate (entry : DirEntry) : bool :=
  negb (IsDir entry) && String.eqb (filepath_Ext (Name entry)) ".wasm".

(** [processed process w files results w']: [results] are the results of
    [process] on [files], one per file, in order, each call starting in
    the state the previous one left, from [w] to [w']. *)
Inductive processed {W E : Type} (process : string → W → outcome ER.t * W * list (entry E))
    : W → list string → list ER.t → W → Prop :=
  | processed_nil w : processed process w [] [] w
  | processed_cons w filePath result w1 tr files results w' :
      process filePath w = (Returned result, w1, tr) →
      processed process w1 files results w' →
      processed process w (filePath :: files) (result :: results) w'.

(** The invariant of the report while it is built. *)
Definition report_ok (report : FuzzingReport) : Prop :=
  Passed report + Failed report = Z.of_nat (length (Results report))
  ∧ sum_counts (FailureCounts report) = Failed report
  ∧ (∀ stage n, FailureCounts report !! stage = Some n → 0 ≤ n)
  ∧ (∀ stage, stage ∈ [StageLoad; StageValidate; StageInstantiate; StageExecute] →
       is_Some (FailureCounts report !! stage)).

(* ===================================================================== *)
(** ** Test doubles of the fault-injection suite *)
(* ===================================================================== *)

(** [TestNoFault_SuccessPath]. *)
Definition success_runtime : WasmRuntime (list nat) nat :=
  MockWasmRuntime (λ _, Returned (Some 0%nat, None))
                  (λ _ _, Returned ([int32 42], None)).

(** [TestResourceCleanup_OnPanic]. *)
Definition panic_in_execute_runtime : WasmRuntime (list nat) nat :=
  MockWasmRuntime (λ _, Returned (Some 0%nat, None))
                  (λ _ _, Panicked (PanicString "test panic")).

(** [TestFaultInjection_RuntimePanic], case [panic_in_load]. *)
Definition panic_in_load_runtime : WasmRuntime (list nat) nat :=
  MockWasmRuntime (λ _, Panicked (PanicString "loader panic: memory corruption"))
                  (λ _ _, Returned ([int32 42], None)).

(** [TestFaultInjection_ValidateError], case [invalid_opcode]. *)
Definition invalid_opcode : error :=
  RuntimeError_ptr (mkRuntimeError StageValidate "unknown opcode 0xFE" None).


(** [TestFaultInjection_LoadError], case [generic_io_error]. *)
Definition generic_io_error_runtime : WasmRuntime (list nat) nat :=
  MockWasmRuntime (λ _, Returned (None, Some (errors_New "read error: permission denied")))
                  (λ _ _, Returned ([int32 42], None)).

(** [TestFaultInjection_ExecutionError], case [trap_unreachable]. *)
Definition trap_unreachable_runtime : WasmRuntime (list nat) nat :=
  MockWasmRuntime (λ _, Returned (Some 0%nat, None))
                  (λ _ _, Returned ([], Some (errors_New "unreachable executed"))).



(** A runtime whose [LoadModule] returns a module together with an
    error. *)
Definition module_and_error_runtime : WasmRuntime (list nat) nat :=
  MockWasmRuntime (λ _, Returned (Some 0%nat, Some invalid_opcode))
                  (λ _ _, Returned ([int32 42], None)).

(** A runtime whose [Execute] returns a tagged error and whose [Close]
    then panics. *)
Definition faulty_close_runtime : WasmRuntime (list nat) nat :=
  scripted_runtime (λ _, Returned (Some 0%nat, None))
                   (λ _ _, Returned ([], Some invalid_opcode))
                   (Panicked (PanicString "close failed")).

(** A runtime whose [Execute] returns a value and whose [Close] then
    panics. *)
Definition values_then_faulty_close_runtime : WasmRuntime (list nat) nat :=
  scripted_runtime (λ _, Returned (Some 0%nat, None))
                   (λ _ _, Returned ([int32 42], None))
                   (Panicked (PanicString "close failed")).

(** A runtime whose load error is a [RuntimeError] with an empty
    [Message]. *)
Definition empty_message_runtime : WasmRuntime (list nat) nat :=
  MockWasmRuntime
    (λ _, Returned (None, Some (RuntimeError_ptr (mkRuntimeError StageLoad "" None))))
    (λ _ _, Returned ([int32 42], None)).


(** A runtime whose [LoadModule] returns neither a module nor an
    error. *)
Definition nil_module_runtime : WasmRuntime (list nat) nat :=
  MockWasmRuntime (λ _, Returned (None, None)) (λ _ _, Returned ([int32 42], None)).

(** An engine for the SDK of [main.go], scripted stage by stage: the
    error of [LoadFile], of [Validate], of [Instantiate], whether the
    export is found, and what [Invoke] does. *)
Definition scripted_engine (load validate instantiate : option error) (found : bool)
    (invoke : outcome (list value * option error)) : WasmEdge unit :=
  mkWasmEdge unit unit unit unit unit unit unit unit unit
    (λ w, (Returned (), w)) (λ _ w, (Returned (), w))
    (λ w, (Returned (), w)) (λ _ w, (Returned (), w))
    (λ _ _ w, (Returned ((), load), w)) (λ _ w, (Returned (), w))
    (λ w, (Returned (), w)) (λ _ w, (Returned (), w))
    (λ _ _ w, (Returned validate, w))
    (λ w, (Returned (), w)) (λ _ w, (Returned (), w))
    (λ w, (Returned (), w)) (λ _ w, (Returned (), w))
    (λ _ _ _ w, (Returned ((), instantiate), w)) (λ _ w, (Returned (), w))
    (λ _ _ w, (Returned (if found then Some () else None), w))
    (λ _ _ _ w, (invoke, w)).

(** Scenario A: [process(i32) -> i32] computing input + 1. *)
Definition valid_module_engine : WasmEdge unit :=
  scripted_engine None None None true (Returned ([int32 2], None)).

(** A listing for the examples: two modules, a text file, a directory
    named like a module; any other directory cannot be read.  The join
    is the one of [filepath.Join] on a clean directory path and a plain
    name. *)
Definition example_ReadDir (dirPath : string) : list DirEntry * option error :=
  if String.eqb dirPath "corpus"
  then ([mkDirEntry "01_valid_module.wasm" false; mkDirEntry "README.md" false;
         mkDirEntry "nested.wasm" true; mkDirEntry "09_unreachable_trap.wasm" false],
        None)
  else ([], Some (errors_New ("open " +:+ dirPath +:+ ": no such file or directory"))).

Definition example_Join (dirPath name : string) : string := dirPath +:+ "/" +:+ name.

(* ===================================================================== *)
(** ** The WasmEdge pipeline: calls, resources and stages *)
(* ===================================================================== *)

(** The calls of [processWasmFile] before any release, in the order of
    the source. *)
Definition pipeline (filePath : string) : list sdk_call :=
  [SdkNewConfigure; SdkNewLoader; SdkLoadFile filePath; SdkNewValidator; SdkValidate;
   SdkNewStore; SdkNewExecutor; SdkInstantiate; SdkFindFunction "process";
   SdkInvoke [int32 1]].

(** The release that has been deferred by the time a call is made: the
    statement before [NewLoader()] is [defer conf.Release()], and so
    on.  [NewConfigure], [NewStore] and [Invoke] follow no [defer]. *)
Definition release_owed (c : sdk_call) : option sdk_call :=
  match c with
  | SdkNewLoader => Some SdkConfigureRelease
  | SdkLoadFile _ => Some SdkLoaderRelease
  | SdkNewValidator => Some SdkASTRelease
  | SdkValidate => Some SdkValidatorRelease
  | SdkNewExecutor => Some SdkStoreRelease
  | SdkInstantiate => Some SdkExecutorRelease
  | SdkFindFunction _ => Some SdkModuleRelease
  | _ => None
  end.

(** The releases owed after the calls [work], last acquired first. *)
Definition owed (work : list sdk_call) : list sdk_call :=
  rev (omap release_owed work).

(** The labels of the deferred calls, top of the stack first. *)
Definition release_labels {W E : Type} (ds : list (deferred W E)) : list E :=
  omap (λ d, match d with DeferCall label _ => Some label | DeferRecover => None end) ds.

(** The stage a failure is attributed to when the body returns after
    this call. *)
Definition stage_of_call (c : sdk_call) : option FailureStage :=
  match c with
  | SdkLoadFile _ => Some StageLoad
  | SdkValidate => Some StageValidate
  | SdkInstantiate => Some StageInstantiate
  | SdkFindFunction _ => Some StageExecute
  | SdkInvoke _ => Some StageExecute
  | _ => None
  end.

(** [result] at a [return] of [processWasmFile], against the calls made:
    a success follows [Invoke] and leaves the stage at [none] and the
    message empty; a failure names the stage of the last call made, has
    a message and no values. *)
Definition returned_ok (result : ER.t) (work : list sdk_call) : Prop :=
  if ER.Success result
  then last work = Some (SdkInvoke [int32 1])
       ∧ ER.FailureStage result = StageNone
       ∧ ER.ErrorMessage result = ""
  else last work ≫= stage_of_call = Some (ER.FailureStage result)
       ∧ ER.ErrorMessage result ≠ ""
       ∧ ER.ReturnValues result = [].

(* ===================================================================== *)
(** ** Counting results, and the calls of one file *)
(* ===================================================================== *)

(** A failed result attributed to [stage]. *)
Definition failed_at (stage : FailureStage) (result : ER.t) : bool :=
  negb (ER.Success result) && String.eqb (ER.FailureStage result) stage.

(** The number of results that satisfy [test]. *)
Definition count_results (test : ER.t → bool) (results : list ER.t) : Z :=
  Z.of_nat (length (List.filter test results)).

(** What the counters of a report say about its results: [Passed] and
    [Failed] count the successes and the failures, and for every stage
    the entry of [FailureCounts] (a missing key reads as 0) counts the
    failures at that stage; a key is there iff it is one of the four
    failure stages or some failure has it. *)
Definition counts_exact (report : FuzzingReport) : Prop :=
  Passed report = count_results ER.Success (Results report)
  ∧ Failed report = count_results (λ r, negb (ER.Success r)) (Results report)
  ∧ ∀ stage,
      default 0 (FailureCounts report !! stage)
        = count_results (failed_at stage) (Results report)
      ∧ (is_Some (FailureCounts report !! stage)
         ↔ stage ∈ [StageLoad; StageValidate; StageInstantiate; StageExecute]
           ∨ 0 < count_results (failed_at stage) (Results report)).


(* ===================================================================== *)
(** ** Wrapped errors; the runtime of the non-integration build *)
(* ===================================================================== *)

(** [err] wrapped with [%w] under each of [prefixes], the first
    outermost. *)
Definition wrap (prefixes : list string) (err : error) : error :=
  foldr fmt_Errorf_w err prefixes.

(** A runtime whose [LoadModule] wraps its errors: a tagged error under
    two wrappers, and for the path "/test/nil_error.wasm" a nil
    [*RuntimeError] under one. *)
Definition wrapped_error_runtime : WasmRuntime (list nat) nat :=
  MockWasmRuntime
    (λ filePath,
       if String.eqb filePath "/test/nil_error.wasm"
       then Returned (None, Some (wrap ["load module: "] RuntimeError_nil))
       else Returned (None, Some (wrap ["load module: "; "decode: "] invalid_opcode)))
    (λ _ _, Returned ([int32 42], None)).

(** [WasmEdgeModule]: the module handle of [WasmEdgeRuntime], which
    holds the path it was loaded from. *)
Record WasmEdgeModule : Type := mkWasmEdgeModule {
  WasmEdgeModule_filePath : string
}.

(** The package variables [loadWasmEdgeModule] and
    [executeWasmFunction], with the values the source gives them. *)
Definition loadWasmEdgeModule (filePath : string)
    : outcome (option WasmEdgeModule * option error) :=
  Returned (Some (mkWasmEdgeModule filePath), None).

Definition executeWasmFunction (filePath funcName : string) (args : list value)
    : outcome (list value * option error) :=
  Returned ([], Some (errors_New "not implemented - use processWasmFile for real execution")).

(** [WasmEdgeRuntime] and [WasmEdgeModule] as a [WasmRuntime], for given
    values of the two package variables (a test may replace them):
    [LoadModule] delegates to the first, [Execute] to the second with
    the path of the module, [Close] does nothing.  The runtime has no
    state of its own. *)
Definition WasmEdgeRuntime
    (load : string → outcome (option WasmEdgeModule * option error))
    (execute : string → string → list value → outcome (list value * option error))
    : WasmRuntime unit WasmEdgeModule :=
  mkRuntime unit WasmEdgeModule
    (λ filePath w, (load filePath, w))
    (λ m funcName args w, (execute (WasmEdgeModule_filePath m) funcName args, w))
    (λ _ w, (Returned (), w)).

(** [NewWasmEdgeRuntime()], with the package variables as declared. *)
Definition NewWasmEdgeRuntime : WasmRuntime unit WasmEdgeModule :=
  WasmEdgeRuntime loadWasmEdgeModule executeWasmFunction.

(** The result of every file under [NewWasmEdgeRuntime()]. *)
Definition not_implemented_result (filePath : string) : ER.t :=
  ER.mk filePath (filepath_Base filePath) false StageExecute
        "execution failed: not implemented - use processWasmFile for real execution" [].

(* ===================================================================== *)
(** ** Path elements *)
(* ===================================================================== *)

(** No character of [s] is a separator. *)
Definition no_separator (s : string) : Prop :=
  ∀ j c, String.get j s = Some c → IsPathSeparator c = false.

(** No character of [s] is a separator or a dot. *)
Definition no_separator_or_dot (s : string) : Prop :=
  ∀ j c, String.get j s = Some c → IsPathSeparator c = false ∧ Ascii.eqb c "." = false.

(* ===================================================================== *)
(** ** main.go: the command *)
(* ===================================================================== *)

(** An [os.FileInfo], as far as [main] looks at it. *)
Record FileInfo : Type := mkFileInfo {
  FileInfo_IsDir : bool
}.

(** What [main] writes.  The JSON encoder is not modelled: a line of the
    error stream is the map given to [Encode], or the text given to
    [Fprintf]; the output stream records each [Encode] of a report and
    whether it returned an error. *)
Inductive stderr_line : Type :=
  | StderrObject (fields : gmap string string)
  | StderrText (text : string).

Inductive stdout_write : Type :=
  | Wrote (report : FuzzingReport)
  | WriteFailed (report : FuzzingReport) (err : error).

Record main_exit (W : Type) : Type := mkExit {
  exit_code : Z;
  stdout : list stdout_write;
  stderr : list stderr_line;
  exit_state : W;
  exit_trace : list (entry sdk_call)
}.
Arguments mkExit {W} _ _ _ _ _.
Arguments exit_code {W} _.
Arguments stdout {W} _.
Arguments stderr {W} _.
Arguments exit_state {W} _.
Arguments exit_trace {W} _.

Section Main.
(** The environment of the command: [os.Stat], which returns the pair
    [(FileInfo, error)]; the listing and the join of the batch runner;
    the SDK, with [wasmedge.SetLogErrorLevel]; and [outputJSON]'s
    [Encode] of the report to the output stream. *)
Context (os_Stat : string → option FileInfo * option error).
Context (os_ReadDir : string → list DirEntry * option error).
Context (filepath_Join : string → string → string).
Context {W : Type} (sdk : WasmEdge W).
Context (SetLogErrorLevel : W → outcome unit * W).
Context (stdout_Encode : FuzzingReport → option error).

(** [json.NewEncoder(os.Stderr).Encode(errorResult); os.Exit(1)]. *)
Definition exit_with_error (fields : gmap string string) (w : W)
    (tr : list (entry sdk_call)) : main_exit W :=
  mkExit 1 [] [StderrObject fields] w tr.

(** The deferred closure of [main] when a panic is in flight. *)
Definition fatal_panic (v : panic_value) (w : W) (tr : list (entry sdk_call)) : main_exit W :=
  exit_with_error (<["error" := "fatal panic in main"]> {["details" := fmt_v v]}) w tr.

(** [main], for the arguments [os.Args] (the program name first). *)
Definition main (args : list string) (w : W) : main_exit W :=
  match args with
  | _ :: dirPath :: _ =>
      match os_Stat dirPath with
      | (_, Some err) =>
          match Error_method err with
          | Panicked v => fatal_panic v w []
          | Returned details =>
              exit_with_error (<["error" := "directory access failed"]>
                                 {["details" := details]}) w []
          end
      | (None, None) =>
          (* info.IsDir() on a nil interface *)
          fatal_panic nil_dereference w []
      | (Some info, None) =>
          if negb (FileInfo_IsDir info)
          then exit_with_error (<["error" := "path is not a directory"]>
                                  {["path" := dirPath]}) w []
          else
            match SetLogErrorLevel w with
            | (Panicked v, w1) => fatal_panic v w1 []
            | (Returned _, w1) =>
                match runFuzzer os_ReadDir filepath_Join sdk dirPath w1 with
                | (Panicked v, w2, tr) => fatal_panic v w2 tr
                | (Returned (_, Some err), w2, tr) =>
                    match Error_method err with
                    | Panicked v => fatal_panic v w2 tr
                    | Returned details =>
                        exit_with_error (<["error" := "fuzzer execution failed"]>
                                           {["details" := details]}) w2 tr
                    end
                | (Returned (report, None), w2, tr) =>
                    match stdout_Encode report with
                    | Some err =>
                        mkExit 1 [WriteFailed report err]
                          [StderrText ("failed to encode JSON output: " +:+ Error err
                                       +:+ String (Ascii.ascii_of_nat 10) "")]
                          w2 tr
                    | None => mkExit 0 [Wrote report] [] w2 tr
                    end
                end
            end
      end
  | _ =>
      exit_with_error {["error" := "usage: wasm-fuzzer <directory>"]} w []
  end.
End Main.

(** An environment for the examples: "corpus" is a directory, "README.md"
    a file, nothing else exists. *)
Definition example_Stat (path : string) : option FileInfo * option error :=
  if String.eqb path "corpus" then (Some (mkFileInfo true), None)
  else if String.eqb path "README.md" then (Some (mkFileInfo false), None)
  else (None, Some (errors_New ("stat " +:+ path +:+ ": no such file or directory"))).

(* ===================================================================== *)
(** * Theorems *)
(* ===================================================================== *)

(* ===================================================================== *)
(** ** path/filepath: the extension of a name *)
(* ===================================================================== *)

Lemma get_append_right (stem s : string) (j : nat) :
  String.get (String.length stem + j) (stem +:+ s) = String.get j s.
Proof. induction stem as [|c stem IH]; [done|]. apply IH. Qed.

Lemma get_in_range (s : string) (j : nat) :
  (j < String.length s)%nat → is_Some (String.get j s).
Proof.
  revert j. induction s as [|c s IH]; intros j Hj; simpl in Hj; [lia|].
  destruct j as [|j]; simpl; [eauto|]. apply IH. lia.
Qed.

Lemma substring_all (s : string) : String.substring 0 (String.length s) s = s.
Proof. induction s as [|c s IH]; [done|]. simpl. by rewrite IH. Qed.

Lemma substring_append_right (stem s : string) :
  String.substring (String.length stem) (String.length s) (stem +:+ s) = s.
Proof. induction stem as [|c stem IH]; [apply substring_all|apply IH]. Qed.

Lemma length_append (s1 s2 : string) :
  String.length (s1 +:+ s2) = (String.length s1 + String.length s2)%nat.
Proof. induction s1 as [|c s1 IH]; [done|]. simpl. f_equal. exact IH. Qed.

Lemma substring_split (s : string) (i : nat) :
  (i ≤ String.length s)%nat →
  s = String.substring 0 i s +:+ String.substring i (String.length s - i) s.
Proof.
  revert i. induction s as [|c s IH]; intros i Hi.
  - by destruct i.
  - destruct i as [|i]; cbn.
    + by rewrite substring_all.
    + change (String c s
              = String c (String.substring 0 i s
                          +:+ String.substring i (String.length s - i) s)).
      f_equal. apply IH. simpl in Hi. lia.
Qed.

(** What [Ext_loop] returns is empty or a suffix of the path. *)
Lemma Ext_loop_suffix (path : string) (n : nat) :
  (n ≤ String.length path)%nat →
  Ext_loop path n = "" ∨ ∃ stem, path = stem +:+ Ext_loop path n.
Proof.
  induction n as [|i IH]; intros Hn; simpl; [by left|].
  destruct (String.get i path) as [c|]; [|by left].
  destruct (IsPathSeparator c); [by left|].
  destruct (Ascii.eqb c "."); [|apply IH; lia].
  right. eexists. apply substring_split. lia.
Qed.

Lemma Ext_loop_found (stem rest : string) (k : nat) :
  (∀ j c, String.get j rest = Some c → IsPathSeparator c = false ∧ Ascii.eqb c "." = false) →
  (k ≤ String.length rest)%nat →
  Ext_loop (stem +:+ String "." rest) (String.length stem + S k) = String "." rest.
Proof.
  intros Hrest. induction k as [|k IH]; intros Hk.
  - rewrite Nat.add_1_r. simpl.
    rewrite <- (Nat.add_0_r (String.length stem)) at 1.
    rewrite get_append_right. simpl.
    rewrite length_append. replace (_ + _ - _)%nat with (String.length (String "." rest)) by lia.
    apply substring_append_right.
  - rewrite Nat.add_succ_r. simpl. rewrite get_append_right. simpl.
    destruct (get_in_range rest k Hk) as [c Hget]. rewrite Hget.
    destruct (Hrest _ _ Hget) as [-> ->]. apply IH. lia.
Qed.

(** A name has extension [.wasm] iff it ends with [.wasm]. *)
Lemma filepath_Ext_wasm (name : string) :
  filepath_Ext name = ".wasm" ↔ ∃ stem, name = stem +:+ ".wasm".
Proof.
  unfold filepath_Ext. split.
  - intros Hext. destruct (Ext_loop_suffix name (String.length name)) as [Hnil|[stem Hstem]];
      [done|by rewrite Hnil in Hext|]. exists stem. by rewrite Hext in Hstem.
  - intros [stem ->]. rewrite length_append.
    apply (Ext_loop_found stem "wasm" 4); [|done].
    intros j c Hget. do 4 (destruct j as [|j]; [by injection Hget as <-|]). done.
Qed.

(* ===================================================================== *)
(** ** Deferred calls: what [run_defers] and [leave] do *)
(* ===================================================================== *)

Section TraceFacts.
Context {E : Type}.
Implicit Types (tr : list (entry E)) (p : option panic_value) (v : panic_value).

Lemma recovered_values_app tr1 tr2 :
  recovered_values (tr1 ++ tr2) = recovered_values tr1 ++ recovered_values tr2.
Proof. apply omap_app. Qed.

Lemma raised_values_app tr1 tr2 :
  raised_values (tr1 ++ tr2) = raised_values tr1 ++ raised_values tr2.
Proof. apply omap_app. Qed.

Lemma recovered_values_entry p :
  recovered_values (recovery_entry (E:=E) p) = option_list p.
Proof. by destruct p. Qed.

Lemma raised_values_entry p : raised_values (recovery_entry (E:=E) p) = [].
Proof. by destruct p. Qed.

Lemma in_flight_call p c tr : in_flight p (Call c :: tr) = in_flight p tr.
Proof. done. Qed.

Lemma in_flight_raised p v tr : in_flight p (Raised v :: tr) = in_flight (Some v) tr.
Proof.
  unfold in_flight. simpl. rewrite last_cons. by destruct (last (raised_values tr)).
Qed.

Lemma in_flight_app p tr1 tr2 :
  in_flight p (tr1 ++ tr2) = in_flight (in_flight p tr1) tr2.
Proof.
  unfold in_flight. rewrite raised_values_app, last_app.
  destruct (last (raised_values tr2)); [done|].
  by destruct (last (raised_values tr1)).
Qed.

Lemma in_flight_none_inv p tr : in_flight p tr = None → p = None ∧ raised_values tr = [].
Proof.
  unfold in_flight. destruct (last (raised_values tr)) eqn:Hl; [done|].
  intros ->. split; [done|]. by apply last_None.
Qed.

End TraceFacts.

Section DeferFacts.
Context {W E : Type}.
Implicit Types (ds : list (deferred W E)) (p : option panic_value) (r : ER.t) (w : W).

(** With the recovery closure deferred first and only releases after
    it: the releases run, last deferred first; the closure then sees
    the last panic raised, or the one of the body; nothing is in
    flight afterwards. *)
Lemma run_defers_releases ds p r w :
  Forall is_release ds →
  ∃ w1 tr1,
    run_defers (ds ++ [DeferRecover]) p r w
      = (None, after_recovery (in_flight p tr1) r, w1,
         tr1 ++ recovery_entry (in_flight p tr1))
    ∧ recovered_values tr1 = [].
Proof.
  intros Hds. revert p w. induction Hds as [|d ds Hd _ IH]; intros p w.
  - exists w, []. split; [|done]. destruct p; done.
  - destruct d as [|label call]; [done|]. simpl.
    destruct (call w) as [[[]|v] w0].
    + destruct (IH p w0) as (w1 & tr1 & -> & Hrec).
      exists w1, (Call label :: tr1). by rewrite in_flight_call.
    + destruct (IH (Some v) w0) as (w1 & tr1 & -> & Hrec).
      exists w1, (Call label :: Raised v :: tr1).
      by rewrite in_flight_call, in_flight_raised.
Qed.

Lemma recover_handler_invariant v r : success_iff_none (recover_handler v r).
Proof. split; intros [=]. Qed.

End DeferFacts.

Section LeaveFacts.
Context {W E : Type}.
Implicit Types (ds : list (deferred W E)) (p : option panic_value) (r : ER.t) (w : W).

Lemma recover_deferred_first_split ds :
  recover_deferred_first ds →
  ∃ releases, ds = releases ++ [DeferRecover] ∧ Forall is_release releases.
Proof.
  induction ds as [|d ds IH]; [done|]. destruct d as [|label call]; simpl.
  - destruct ds; [|done]. intros _. by exists [].
  - intros (releases & -> & Hrel)%IH.
    exists (DeferCall label call :: releases). split; [done|]. by constructor.
Qed.

(** Leaving a function whose body is well formed: the caller gets a
    result, never a panic; the recovery closure ran last and saw [q],
    the last panic raised by the body or by a release. *)
Lemma leave_wf p r ds w tr :
  body_wf (p, r, ds, w, tr) →
  ∃ w' tr',
    let q := in_flight None (tr ++ tr') in
    leave (p, r, ds, w, tr)
      = (Returned (after_recovery q r), w', tr ++ tr' ++ recovery_entry q)
    ∧ recovered_values tr' = []
    ∧ (q = None → p = None).
Proof.
  intros (Hds & Hrec & ->).
  apply recover_deferred_first_split in Hds as (releases & -> & Hrel).
  destruct (run_defers_releases releases (in_flight None tr) r w Hrel)
    as (w' & tr' & Hrun & Hrec').
  exists w', tr'. cbn zeta. rewrite in_flight_app.
  split; [|split; [done|]].
  - unfold leave. by rewrite Hrun.
  - by intros [? _]%in_flight_none_inv.
Qed.

(** The shape of the whole trace after [leave_wf]. *)
Lemma leave_trace_raised (tr tr' : list (entry E)) :
  let q := in_flight None (tr ++ tr') in
  raised_values (tr ++ tr' ++ recovery_entry q) = raised_values (tr ++ tr')
  ∧ last (raised_values (tr ++ tr')) = q.
Proof.
  cbn zeta. split.
  - rewrite !raised_values_app, raised_values_entry. by rewrite app_nil_r.
  - unfold in_flight. by destruct (last _).
Qed.

Lemma leave_trace_recovered (tr tr' : list (entry E)) :
  recovered_values tr = [] → recovered_values tr' = [] →
  let q := in_flight None (tr ++ tr') in
  recovered_values (tr ++ tr' ++ recovery_entry q) = option_list q.
Proof.
  intros H1 H2. cbn zeta.
  by rewrite !recovered_values_app, H1, H2, recovered_values_entry.
Qed.

(** Containment, for any well-formed body.  The function returns; with
    no panic raised nothing is recovered and [result] is as the body
    left it; otherwise the last panic raised is recovered, once, as the
    last event, and [result] is the body's with the three fields of
    the recovery closure overwritten. *)
Lemma leave_contains p r ds w tr :
  body_wf (p, r, ds, w, tr) →
  ∃ result w' tr_all,
    leave (p, r, ds, w, tr) = (Returned result, w', tr_all)
    ∧ (raised_values tr_all = [] →
         recovered_values tr_all = [] ∧ result = r ∧ p = None)
    ∧ (∀ v, last (raised_values tr_all) = Some v →
         recovered_values tr_all = [v]
         ∧ last tr_all = Some (Recovered v)
         ∧ result = recover_handler v r).
Proof.
  intros Hwf. pose proof Hwf as (_ & Hrec & _).
  destruct (leave_wf _ _ _ _ _ Hwf) as (w' & tr' & Hleave & Hrec' & Hq).
  cbn zeta in *.
  destruct (leave_trace_raised tr tr') as [Hraised Hlast]. cbn zeta in *.
  pose proof (leave_trace_recovered tr tr' Hrec Hrec') as Hrecovered. cbn zeta in *.
  set (q := in_flight None (tr ++ tr')) in *.
  eexists _, w', _. split; [exact Hleave|]. rewrite Hraised, Hrecovered, Hlast.
  split.
  - intros Hnil. rewrite Hnil in Hlast. simpl in Hlast. rewrite <- Hlast in *.
    auto.
  - intros v ->. simpl. split; [done|]. split; [|done].
    by rewrite !app_assoc, last_snoc.
Qed.
End LeaveFacts.

(* ===================================================================== *)
(** ** The two processors: their bodies are well formed *)
(* ===================================================================== *)

Lemma processWasmFileWithRuntime_body_wf {W M : Type} (runtime : WasmRuntime W M)
    (filePath : string) (w : W) :
  body_wf (processWasmFileWithRuntime_body runtime filePath w).
Proof.
  unfold processWasmFileWithRuntime_body, classify.
  destruct (LoadModule runtime filePath w) as [[[[m|] [err|]]|v] w1];
    try destruct (errors_As err) as [[e|]|]; try done.
  destruct (Execute runtime m "process" [int32 1] w1) as [[[returns [err|]]|v] w2];
    try destruct (errors_As err) as [[e|]|]; done.
Qed.

(** *** The rules of the program logic for bodies *)
Section BodyLogic.
Context {W E : Type} (filePath : string).
Implicit Types (fr : frame W E).

Lemma triple_bind {A B : Type} (m : body W E A) (k : A → body W E B) Q :
  triple filePath m (continuing filePath) → (∀ a, triple filePath (k a) Q) →
  triple filePath (m ≫= k) Q.
Proof.
  intros Hm Hk fr Hfr. specialize (Hm fr Hfr).
  unfold mbind, body_bind. destruct (m fr) as [[a| |v] fr']; [|done..].
  by apply Hk.
Qed.

Lemma stops_triple {A : Type} (m : body W E A) Q : stops filePath m → triple filePath m Q.
Proof.
  intros Hm fr Hfr. specialize (Hm fr Hfr). by destruct (m fr) as [[a| |v] fr'].
Qed.

Lemma triple_ret {A : Type} (a : A) :
  triple (W:=W) (E:=E) filePath (mret a) (continuing filePath).
Proof. by intros fr Hfr. Qed.

Lemma triple_call {A : Type} (label : E) (f : W → outcome A * W) :
  triple filePath (call label f) (continuing filePath).
Proof.
  intros fr (Hds & Hrec & Hraised & Hpath & Hname & Hstage). unfold call.
  destruct (f (fr_world fr)) as [[a|v] w]; simpl.
  - unfold continuing. simpl.
    rewrite recovered_values_app, raised_values_app, Hrec, Hraised. done.
  - unfold exit_ok, body_wf. simpl.
    rewrite recovered_values_app, Hrec. split_and!; try done.
    unfold in_flight. rewrite raised_values_app, Hraised. done.
Qed.

Lemma triple_defer (label : E) (f : W → outcome unit * W) :
  triple filePath (defer (DeferCall label f)) (continuing filePath).
Proof. by intros fr (Hds & Hrec & Hraised & Hpath & Hname & Hstage). Qed.

(** A failing branch: the stage written is a failure stage. *)
Lemma stops_fail {A : Type} (stage : FailureStage) (message : string) :
  stage ≠ StageNone →
  stops (W:=W) (E:=E) (A:=A) filePath
    (assign (ER.set_Success false);;
     assign (ER.set_FailureStage stage);;
     assign (ER.set_ErrorMessage message);;
     return_result).
Proof.
  intros Hne fr (Hds & Hrec & Hraised & Hpath & Hname & Hstage).
  unfold exit_ok, body_wf, success_iff_none, in_flight. simpl.
  rewrite Hraised. by split_and!.
Qed.

(** The successful end. *)
Lemma stops_success {A : Type} (returns : list value) :
  stops (W:=W) (E:=E) (A:=A) filePath
    (assign (ER.set_Success true);;
     assign (ER.set_ReturnValues returns);;
     return_result).
Proof.
  intros fr (Hds & Hrec & Hraised & Hpath & Hname & Hstage).
  unfold exit_ok, body_wf, success_iff_none, in_flight. simpl.
  rewrite Hraised. by split_and!.
Qed.

(** The prologue of both processors, run from the zero value of
    [result], gives a continuing frame. *)
Lemma prologue_continuing (w : W) :
  continuing (E:=E) filePath
    (mkFrame (ER.set_FailureStage StageNone
                (ER.set_FileName (filepath_Base filePath)
                  (ER.set_FilePath filePath ER.zero)))
             [DeferRecover] w []).
Proof. by unfold continuing. Qed.
End BodyLogic.

Section WasmEdgeFacts.
Context {W : Type} (sdk : WasmEdge W) (filePath : string).

(** One rule of the logic, chosen by the head of the body. *)
Local Ltac step :=
  lazymatch goal with
  | |- triple _ (call _ _) _ => apply triple_call
  | |- triple _ (defer _) _ => apply triple_defer
  | |- triple _ (mret _) _ => apply triple_ret
  | |- triple _ (match ?x with _ => _ end) _ => destruct x
  | |- triple _ (mbind _ (assign (ER.set_Success false))) (λ _, False) =>
      apply stops_fail; discriminate
  | |- triple _ (mbind _ (assign (ER.set_Success false))) _ =>
      apply stops_triple, stops_fail; discriminate
  | |- triple _ (mbind _ (assign (ER.set_Success true))) _ => apply stops_success
  | |- triple _ (mbind _ _) _ => apply triple_bind; [|intros ?]
  end.

(** The stages stop, and stop well. *)
Lemma processWasmFile_stages_stop : stops filePath (processWasmFile_stages sdk filePath).
Proof. unfold stops, processWasmFile_stages, fail_with. repeat step. Qed.

(** What the body of [processWasmFile] leaves behind: a well-formed
    frame, the path and the base name in [result], and, unless it
    panicked, a [result] with [success] iff [stage = none]. *)
Lemma processWasmFile_body_post (w : W) :
  ∀ fl fr, processWasmFile_body sdk filePath (mkFrame ER.zero [] w []) = (fl, fr) →
    exit_ok filePath fl fr.
Proof.
  intros fl fr Hrun.
  pose proof (processWasmFile_stages_stop _ (prologue_continuing filePath w)) as Hstop.
  change (processWasmFile_body sdk filePath (mkFrame ER.zero [] w []))
    with (processWasmFile_stages sdk filePath
            (mkFrame (ER.set_FailureStage StageNone
                       (ER.set_FileName (filepath_Base filePath)
                         (ER.set_FilePath filePath ER.zero)))
                     [DeferRecover] w [])) in Hrun.
  rewrite Hrun in Hstop. by destruct fl.
Qed.
End WasmEdgeFacts.

(* ===================================================================== *)
(** ** Containment *)
(* ===================================================================== *)

Section Summary.
Context {W E : Type}.

Lemma leave_summary (p : option panic_value) (r : ER.t) (ds : list (deferred W E))
    (w : W) (tr : list (entry E)) :
  body_wf (p, r, ds, w, tr) →
  ∃ result w' tr_all,
    leave (p, r, ds, w, tr) = (Returned result, w', tr_all)
    ∧ contained result tr_all
    ∧ ER.FilePath result = ER.FilePath r
    ∧ ER.FileName result = ER.FileName r
    ∧ ER.ReturnValues result = ER.ReturnValues r
    ∧ (raised_values tr_all = [] → result = r ∧ p = None)
    ∧ (raised_values tr_all ≠ [] → ∃ v, result = recover_handler v r).
Proof.
  intros Hwf.
  destruct (leave_contains _ _ _ _ _ Hwf) as (result & w' & tr_all & Hleave & Hnone & Hsome).
  exists result, w', tr_all. split; [done|].
  unfold contained. destruct (last (raised_values tr_all)) as [v|] eqn:Hlast.
  - destruct (Hsome v eq_refl) as (Hrec & Hend & ->).
    split_and!; try done.
    + intros Hnil. by rewrite Hnil in Hlast.
    + intros _. by exists v.
  - apply last_None in Hlast. destruct (Hnone Hlast) as (Hrec & -> & ->).
    by split_and!.
Qed.
End Summary.

Section RuntimeFacts.
Context {W M : Type} (runtime : WasmRuntime W M).

(** The classification, by the three cases of [errors.As]: a pointer to
    a [RuntimeError], no [*RuntimeError] at all, a nil pointer. *)
Lemma classify_spec nominal prefix err r :
  classify nominal prefix err r
  = match errors_As err with
    | Some (Some e) =>
        (None, ER.mk (ER.FilePath r) (ER.FileName r) false (Stage e) (Message e)
                     (ER.ReturnValues r))
    | Some None =>
        (Some nil_dereference,
         ER.mk (ER.FilePath r) (ER.FileName r) false (ER.FailureStage r)
               (ER.ErrorMessage r) (ER.ReturnValues r))
    | None =>
        (None, ER.mk (ER.FilePath r) (ER.FileName r) false nominal
                     (prefix +:+ Error err) (ER.ReturnValues r))
    end.
Proof. unfold classify. destruct r. by destruct (errors_As err) as [[e|]|]. Qed.

(** [result] at the end of the body holds the path and its base name;
    it is marked successful only with the stage left at [none]. *)
Lemma processWasmFileWithRuntime_body_result filePath w :
  ∀ p r ds w1 tr,
    processWasmFileWithRuntime_body runtime filePath w = (p, r, ds, w1, tr) →
    ER.FilePath r = filePath
    ∧ ER.FileName r = filepath_Base filePath
    ∧ (ER.Success r = true → ER.FailureStage r = StageNone ∧ ER.ErrorMessage r = "").
Proof.
  intros p r ds w1 tr. unfold processWasmFileWithRuntime_body.
  destruct (LoadModule runtime filePath w) as [[[[m|] [err|]]|v] w0];
    [| destruct (Execute runtime m "process" [int32 1] w0)
         as [[[returns [err|]]|v] w2] | ..];
    try rewrite classify_spec; try destruct (errors_As err) as [[e|]|];
    intros [= <- <- <- <- <-]; done.
Qed.

(** The processor returns to its caller, whatever the runtime does. *)
Lemma processWasmFileWithRuntime_returns filePath w :
  ∃ result w' tr,
    processWasmFileWithRuntime runtime filePath w = (Returned result, w', tr)
    ∧ contained result tr
    ∧ ER.FilePath result = filePath
    ∧ ER.FileName result = filepath_Base filePath
    ∧ (ER.Success result = true → ER.FailureStage result = StageNone).
Proof.
  unfold processWasmFileWithRuntime.
  pose proof (processWasmFileWithRuntime_body_wf runtime filePath w) as Hwf.
  pose proof (processWasmFileWithRuntime_body_result filePath w) as Hres.
  destruct (processWasmFileWithRuntime_body runtime filePath w) as [[[[p r] ds] w1] tr].
  destruct (Hres _ _ _ _ _ eq_refl) as (Hpath & Hname & Hsucc).
  destruct (leave_summary _ _ _ _ _ Hwf)
    as (result & w' & tr_all & -> & Hc & Hp & Hn & _ & Hnone & Hsome).
  exists result, w', tr_all. split_and!; try congruence.
  intros Hs. destruct (decide (raised_values tr_all = [])) as [Hnil|Hne].
  - destruct (Hnone Hnil) as [-> _]. by apply Hsucc.
  - destruct (Hsome Hne) as [v ->]. done.
Qed.
End RuntimeFacts.

Section SdkFacts.
Context {W : Type} (sdk : WasmEdge W).

(** [processWasmFile] returns to its caller, whatever the SDK does,
    and its result satisfies the invariant of the data model. *)
Lemma processWasmFile_returns filePath w :
  ∃ result w' tr,
    processWasmFile sdk filePath w = (Returned result, w', tr)
    ∧ contained result tr
    ∧ ER.FilePath result = filePath
    ∧ ER.FileName result = filepath_Base filePath
    ∧ success_iff_none result.
Proof.
  unfold processWasmFile, run_function.
  pose proof (processWasmFile_body_post sdk filePath w) as Hpost.
  destruct (processWasmFile_body sdk filePath _) as [fl fr].
  destruct (Hpost _ _ eq_refl) as (Hwf & Hpath & Hname & Hinv).
  destruct (leave_summary _ _ _ _ _ Hwf)
    as (result & w' & tr_all & Hleave & Hc & Hp & Hn & _ & Hnone & Hsome).
  exists result, w', tr_all. split_and!; try congruence.
  - rewrite <- Hleave. by destruct fl.
  - destruct (decide (raised_values tr_all = [])) as [Hnil|Hne].
    + destruct (Hnone Hnil) as [-> Hp0]. by apply Hinv.
    + destruct (Hsome Hne) as [v ->]. apply recover_handler_invariant.
Qed.
End SdkFacts.

(* ===================================================================== *)
(** ** [processWasmFileWithRuntime], path by path *)
(* ===================================================================== *)

Section Paths.
Context {W M : Type} (runtime : WasmRuntime W M).
Implicit Types (filePath : string) (w : W) (m : M) (v : panic_value) (err : error).

(** [LoadModule] panics. *)
Lemma process_load_panicked filePath w v w1 :
  LoadModule runtime filePath w = (Panicked v, w1) →
  processWasmFileWithRuntime runtime filePath w
    = (Returned (recover_handler v (entry_result filePath)), w1,
       [Call (CallLoadModule filePath); Raised v; Recovered v]).
Proof.
  intros Hload. unfold processWasmFileWithRuntime, processWasmFileWithRuntime_body.
  by rewrite Hload.
Qed.

(** [LoadModule] returns an error, with or without a module: the error
    is classified, and a panic of the classification is recovered. *)
Lemma process_load_failed filePath w (module : option M) err w1 :
  LoadModule runtime filePath w = (Returned (module, Some err), w1) →
  let c := classify StageLoad "load failed: " err (entry_result filePath) in
  processWasmFileWithRuntime runtime filePath w
    = (Returned (after_recovery (fst c) (snd c)), w1,
       Call (CallLoadModule filePath) :: raise_entry (fst c) ++ recovery_entry (fst c)).
Proof.
  intros Hload. unfold processWasmFileWithRuntime, processWasmFileWithRuntime_body.
  rewrite Hload. cbn zeta.
  destruct (classify StageLoad "load failed: " err (entry_result filePath)) as [[v|] r];
    by destruct module.
Qed.

(** [LoadModule] returns neither a module nor an error. *)
Lemma process_load_nil filePath w w1 :
  LoadModule runtime filePath w = (Returned (None, None), w1) →
  processWasmFileWithRuntime runtime filePath w
    = (Returned (recover_handler nil_dereference (entry_result filePath)), w1,
       [Call (CallLoadModule filePath); Raised nil_dereference; Recovered nil_dereference]).
Proof.
  intros Hload. unfold processWasmFileWithRuntime, processWasmFileWithRuntime_body.
  by rewrite Hload.
Qed.

(** [LoadModule] returns a module and no error: [Execute] is called,
    then [Close], then the recovery closure runs. *)
Lemma process_loaded filePath w m w1 ex w2 cl w3 :
  LoadModule runtime filePath w = (Returned (Some m, None), w1) →
  Execute runtime m "process" [int32 1] w1 = (ex, w2) →
  Close runtime m w2 = (cl, w3) →
  let c := executed filePath ex in
  let q := in_flight (fst c) (raised_by (E:=boundary_call M) cl) in
  processWasmFileWithRuntime runtime filePath w
    = (Returned (after_recovery q (snd c)), w3,
       [Call (CallLoadModule filePath); Call (CallExecute m "process" [int32 1])]
         ++ raise_entry (fst c) ++ [Call (CallClose m)] ++ raised_by cl ++ recovery_entry q).
Proof.
  intros Hload Hexec Hclose.
  unfold processWasmFileWithRuntime, processWasmFileWithRuntime_body.
  rewrite Hload, Hexec. unfold executed.
  destruct ex as [[returns [err|]]|v];
    [destruct (classify StageExecute "execution failed: " err (entry_result filePath))
       as [[v|] r]|..];
    unfold leave; simpl; rewrite Hclose; by destruct cl as [[]|v'].
Qed.
End Paths.

(* ===================================================================== *)
(** ** The file processor: containment, classification, release *)
(* ===================================================================== *)



(** Rewrite the run [Hrun] by the lemma of its path. *)
Local Ltac on_load_error Hload Hrun :=
  let H := fresh in
  pose proof (process_load_failed _ _ _ _ _ _ Hload) as H;
  cbn zeta in H; rewrite H in Hrun; clear H; injection Hrun as <- <- <-.

Local Ltac on_loaded Hload Hexec Hclose Hrun :=
  let H := fresh in
  pose proof (process_loaded _ _ _ _ _ _ _ _ _ Hload Hexec Hclose) as H;
  cbn zeta in H; rewrite H in Hrun; clear H; injection Hrun as <- <- <-.



(** C5.  When [LoadModule] returns a module and no error, [Close] is
    called on that module exactly once, and after [Execute], whatever
    [Execute] did (returned values, returned an error, panicked): the
    state the processor leaves is the one a single [Close] makes of the
    state [Execute] left, and the calls are [LoadModule], [Execute],
    [Close].  When [LoadModule] returns an error or panics, or returns
    neither a module nor an error, [Close] is not called: the state is
    left as [LoadModule] left it and [LoadModule] is the only call. *)
Theorem close_exactly_once {W M : Type} (runtime : WasmRuntime W M)
    (filePath : string) (w : W) (result : ER.t) (w' : W)
    (tr : list (entry (boundary_call M))) :
  processWasmFileWithRuntime runtime filePath w = (Returned result, w', tr) →
  (∀ m w1,
     LoadModule runtime filePath w = (Returned (Some m, None), w1) →
     ∃ ex w2 cl,
       Execute runtime m "process" [int32 1] w1 = (ex, w2)
       ∧ Close runtime m w2 = (cl, w')
       ∧ closed_modules tr = [m]
       ∧ calls_made tr = [CallLoadModule filePath; CallExecute m "process" [int32 1];
                          CallClose m])
  ∧ (∀ module err w1,
       LoadModule runtime filePath w = (Returned (module, Some err), w1) →
       w' = w1 ∧ closed_modules tr = [] ∧ calls_made tr = [CallLoadModule filePath])
  ∧ (∀ v w1, LoadModule runtime filePath w = (Panicked v, w1) →
       w' = w1 ∧ closed_modules tr = [] ∧ calls_made tr = [CallLoadModule filePath])
  ∧ (∀ w1, LoadModule runtime filePath w = (Returned (None, None), w1) →
       w' = w1 ∧ closed_modules tr = [] ∧ calls_made tr = [CallLoadModule filePath]).
Proof.
  intros Hrun. split_and!.
  - intros m w1 Hload.
    destruct (Execute runtime m "process" [int32 1] w1) as [ex w2] eqn:Hexec.
    destruct (Close runtime m w2) as [cl w3] eqn:Hclose.
    on_loaded Hload Hexec Hclose Hrun.
    exists ex, w2, cl. split; [done|]. split; [done|].
    unfold executed. destruct ex as [[returns [err|]]|v]; [rewrite classify_spec|..];
      try destruct (errors_As err) as [[e|]|]; by destruct cl as [[]|v'].
  - intros module err w1 Hload. on_load_error Hload Hrun.
    rewrite classify_spec. by destruct (errors_As err) as [[e|]|].
  - intros v w1 Hload.
    rewrite (process_load_panicked _ _ _ _ _ Hload) in Hrun. by injection Hrun as <- <- <-.
  - intros w1 Hload.
    rewrite (process_load_nil _ _ _ _ Hload) in Hrun. by injection Hrun as <- <- <-.
Qed.

(** [TestResourceCleanup_OnPanic]: the state of the double is the list
    of the modules its [Close] was called on, and after a panic of
    [Execute] it holds the module once. *)
Lemma close_exactly_once_witness :
  ∃ result tr,
    processWasmFileWithRuntime panic_in_execute_runtime "/test/panic_cleanup.wasm" []
      = (Returned result, [0%nat], tr)
    ∧ closed_modules tr = [0%nat].
Proof.
  destruct (processWasmFileWithRuntime panic_in_execute_runtime "/test/panic_cleanup.wasm" [])
    as [[[result|v] w'] tr] eqn:Hrun; [|by vm_compute in Hrun].
  destruct (close_exactly_once panic_in_execute_runtime "/test/panic_cleanup.wasm" []
              result w' tr Hrun) as (Hloaded & _).
  destruct (Hloaded 0%nat [] eq_refl) as (ex & w2 & cl & Hexec & Hclose & Hclosed & _).
  exists result, tr. split; [|exact Hclosed].
  vm_compute in Hexec. injection Hexec as <- <-.
  vm_compute in Hclose. injection Hclose as <- <-. reflexivity.
Defined.

(** C9.  When [LoadModule] returns a module together with an error, the
    processor takes the failure branch and classifies the error at the
    load call site; [Close] is not called on the module returned:
    [LoadModule] is the only call made on the runtime and the state is
    left as it left it.  The result is a failure without values: with
    the tag and the message of the [RuntimeError] found, with [load]
    and the text of the error when there is none, and the recovered
    panic of the classification when the [*RuntimeError] found is
    nil. *)
Theorem module_with_error_not_closed {W M : Type} (runtime : WasmRuntime W M)
    (filePath : string) (w : W) (m : M) (err : error) (w1 : W) :
  LoadModule runtime filePath w = (Returned (Some m, Some err), w1) →
  ∃ result tr,
    processWasmFileWithRuntime runtime filePath w = (Returned result, w1, tr)
    ∧ calls_made tr = [CallLoadModule filePath]
    ∧ closed_modules tr = []
    ∧ result
      = match errors_As err with
        | Some (Some e) =>
            ER.mk filePath (filepath_Base filePath) false (Stage e) (Message e) []
        | None =>
            ER.mk filePath (filepath_Base filePath) false StageLoad
                  ("load failed: " +:+ Error err) []
        | Some None =>
            ER.mk filePath (filepath_Base filePath) false StageExecute
                  ("panic recovered: " +:+ fmt_v nil_dereference) []
        end.
Proof.
  intros Hload. pose proof (process_load_failed _ _ _ _ _ _ Hload) as Hrun.
  cbn zeta in Hrun. rewrite Hrun. eexists _, _. split; [reflexivity|].
  rewrite classify_spec. by destruct (errors_As err) as [[e|]|].
Qed.

Lemma module_with_error_not_closed_witness :
  ∃ result w' tr,
    processWasmFileWithRuntime module_and_error_runtime "/test/invalid.wasm" []
      = (Returned result, w', tr)
    ∧ ER.FailureStage result = StageValidate
    ∧ closed_modules tr = []
    ∧ w' = [].
Proof.
  destruct (module_with_error_not_closed module_and_error_runtime "/test/invalid.wasm" []
              0%nat invalid_opcode [] eq_refl) as (result & tr & Hrun & _ & Hclosed & Hres).
  exists result, [], tr. split; [exact Hrun|]. split; [by rewrite Hres|].
  split; [exact Hclosed|]. reflexivity.
Defined.

(** C10.  For every path and every outcome, the result of either
    processor has [FilePath] equal to the path and [FileName] equal to
    its base name.  The recovery closure writes [Success],
    [FailureStage] and [ErrorMessage] and leaves the other three fields
    as they were. *)
Theorem result_names_the_file {W M W' : Type}
    (runtime : WasmRuntime W M) (sdk : WasmEdge W') (filePath : string) (w : W) (w' : W') :
  (∃ result w1 tr,
      processWasmFileWithRuntime runtime filePath w = (Returned result, w1, tr)
      ∧ ER.FilePath result = filePath
      ∧ ER.FileName result = filepath_Base filePath)
  ∧ (∃ result w1 tr,
      processWasmFile sdk filePath w' = (Returned result, w1, tr)
      ∧ ER.FilePath result = filePath
      ∧ ER.FileName result = filepath_Base filePath)
  ∧ (∀ v r,
      recover_handler v r
        = ER.mk (ER.FilePath r) (ER.FileName r) false StageExecute
                ("panic recovered: " +:+ fmt_v v) (ER.ReturnValues r)).
Proof.
  split_and!.
  - destruct (processWasmFileWithRuntime_returns runtime filePath w)
      as (result & w1 & tr & Hrun & _ & Hpath & Hname & _).
    by exists result, w1, tr.
  - destruct (processWasmFile_returns sdk filePath w')
      as (result & w1 & tr & Hrun & _ & Hpath & Hname & _).
    by exists result, w1, tr.
  - done.
Qed.

Lemma result_names_the_file_witness :
  ∃ result,
    fst (fst (processWasmFileWithRuntime panic_in_load_runtime "/test/panic.wasm" []))
      = Returned result
    ∧ ER.FilePath result = "/test/panic.wasm"
    ∧ ER.FileName result = "panic.wasm".
Proof.
  destruct (result_names_the_file panic_in_load_runtime valid_module_engine
              "/test/panic.wasm" [] ())
    as ((result & w1 & tr & Hrun & Hpath & Hname) & _).
  exists result. rewrite Hrun. split; [reflexivity|]. split; [exact Hpath|].
  rewrite Hname. reflexivity.
Defined.








(* ===================================================================== *)
(** ** The batch runner *)
(* ===================================================================== *)

Section CountFacts.
Implicit Types (counts : gmap string Z) (stage : FailureStage).

Lemma sum_counts_insert counts stage n :
  counts !! stage = None → sum_counts (<[stage := n]> counts) = n + sum_counts counts.
Proof.
  intros Hnone. unfold sum_counts. apply map_fold_insert_L; [|done].
  intros. lia.
Qed.

Lemma sum_counts_delete counts stage n :
  counts !! stage = Some n → sum_counts counts = n + sum_counts (delete stage counts).
Proof.
  intros Hsome. rewrite <- (insert_delete_id counts stage n Hsome) at 1.
  apply sum_counts_insert, lookup_delete_eq.
Qed.

(** [counts[stage]++] adds one to the sum, whether the key was there or
    not. *)
Lemma sum_counts_increment counts stage :
  sum_counts (increment stage counts) = sum_counts counts + 1.
Proof.
  unfold increment. destruct (counts !! stage) as [n|] eqn:Hlookup; simpl.
  - rewrite <- insert_delete_eq.
    rewrite sum_counts_insert by apply lookup_delete_eq.
    rewrite (sum_counts_delete counts stage n Hlookup). lia.
  - rewrite sum_counts_insert by done. lia.
Qed.

Lemma increment_lookup counts stage stage' :
  increment stage counts !! stage'
  = if decide (stage = stage') then Some (default 0 (counts !! stage) + 1)
    else counts !! stage'.
Proof. unfold increment. apply lookup_insert. Qed.

Lemma sum_counts_empty : sum_counts ∅ = 0.
Proof. apply map_fold_empty. Qed.

Lemma initial_report_ok : report_ok initial_report.
Proof.
  unfold report_ok, initial_report, StageLoad, StageValidate, StageInstantiate,
    StageExecute. simpl. split_and!.
  - done.
  - rewrite !sum_counts_insert, sum_counts_empty by (by simplify_map_eq). done.
  - intros stage n Hn.
    repeat (apply lookup_insert_Some in Hn as [[_ <-]|[_ Hn]]; [done|]).
    by rewrite lookup_empty in Hn.
  - intros stage Hin. repeat (apply elem_of_cons in Hin as [->|Hin]; [by simplify_map_eq|]).
    by apply elem_of_nil in Hin.
Qed.

(** One iteration keeps the invariant and appends exactly one result. *)
Lemma record_result_ok result report :
  report_ok report → report_ok (record_result result report).
Proof.
  intros (Hsum & Hcounts & Hnonneg & Hkeys). unfold report_ok, record_result.
  destruct (ER.Success result); simpl; rewrite length_app, Nat2Z.inj_add; simpl.
  - split_and!; [lia|done..].
  - split_and!.
    + lia.
    + rewrite sum_counts_increment. lia.
    + intros stage n. rewrite increment_lookup. case_decide; [|by apply Hnonneg].
      intros [= <-]. destruct (FailureCounts report !! _) as [k|] eqn:Hk; simpl; [|lia].
      apply Hnonneg in Hk. lia.
    + intros stage Hin. rewrite increment_lookup. case_decide; [done|by apply Hkeys].
Qed.

Lemma record_result_results result report :
  Results (record_result result report) = Results report ++ [result]
  ∧ TotalFiles (record_result result report) = TotalFiles report.
Proof. unfold record_result. by destruct (ER.Success result). Qed.
End CountFacts.

Section LoopFacts.
Context (os_ReadDir : string → list DirEntry * option error).
Context (filepath_Join : string → string → string).
Context {W E : Type} (process : string → W → outcome ER.t * W * list (entry E)).

(** The processor of the loop returns, whatever the file. *)
Hypothesis process_returns :
  ∀ filePath w, ∃ result w' tr, process filePath w = (Returned result, w', tr).

(** The loop of [collectWasmFiles] appends the candidates, in the order
    of the listing. *)
Lemma collect_loop_spec dirPath entries files :
  collect_loop filepath_Join dirPath entries files
  = files ++ map (λ entry, filepath_Join dirPath (Name entry))
                 (List.filter is_candidate entries).
Proof.
  revert files. induction entries as [|entry entries IH]; intros files; simpl.
  - by rewrite app_nil_r.
  - unfold is_candidate at 1. destruct (IsDir entry); simpl; [apply IH|].
    destruct (String.eqb _ _); simpl; [|apply IH].
    by rewrite IH, <- app_assoc.
Qed.

(** The processing loop runs to its end: one result per file, in order,
    appended to those already there; the invariant of the report is
    kept. *)
Lemma process_files_spec files report w :
  ∃ report' w' tr results,
    process_files process files report w = (Returned report', w', tr)
    ∧ Results report' = Results report ++ results
    ∧ processed process w files results w'
    ∧ TotalFiles report' = TotalFiles report
    ∧ (report_ok report → report_ok report').
Proof.
  revert report w. induction files as [|filePath files IH]; intros report w; simpl.
  - exists report, w, [], []. rewrite app_nil_r. split_and!; try done. constructor.
  - destruct (process_returns filePath w) as (result & w1 & tr1 & Hrun). rewrite Hrun.
    destruct (IH (record_result result report) w1)
      as (report' & w' & tr & results & -> & Hres & Hproc & Htotal & Hok).
    destruct (record_result_results result report) as [Hres1 Htotal1].
    exists report', w', (tr1 ++ tr), (result :: results). split_and!.
    + done.
    + by rewrite Hres, Hres1, <- app_assoc.
    + by econstructor.
    + congruence.
    + intros Hreport. by apply Hok, record_result_ok.
Qed.

Lemma processed_length w files results w' :
  processed process w files results w' → length results = length files.
Proof. induction 1; simpl; congruence. Qed.

(** The i-th result is the result of the processor on the i-th file. *)
Lemma processed_lookup w files results w' i filePath :
  processed process w files results w' →
  files !! i = Some filePath →
  ∃ result wi wi' tri,
    results !! i = Some result ∧ process filePath wi = (Returned result, wi', tri).
Proof.
  intros Hproc. revert i. induction Hproc as [|w f result w1 tr files results w' Hrun _ IH];
    intros i Hi; [done|].
  destruct i as [|i]; simpl in *.
  - injection Hi as ->. eauto 10.
  - by apply IH.
Qed.

(** [run_fuzzer], the two cases of discovery. *)
Lemma run_fuzzer_spec dirPath w :
  match os_ReadDir dirPath with
  | (_, Some err) =>
      run_fuzzer os_ReadDir filepath_Join process dirPath w
      = (Returned (initial_report, Some (fmt_Errorf_w "failed to read directory: " err)),
         w, [])
  | (entries, None) =>
      let files := map (λ entry, filepath_Join dirPath (Name entry))
                       (List.filter is_candidate entries) in
      ∃ report w' tr,
        run_fuzzer os_ReadDir filepath_Join process dirPath w
        = (Returned (report, None), w', tr)
        ∧ processed process w files (Results report) w'
        ∧ TotalFiles report = Z.of_nat (length files)
        ∧ report_ok report
  end.
Proof.
  unfold run_fuzzer, collectWasmFiles.
  destruct (os_ReadDir dirPath) as [entries [err|]]; [done|].
  rewrite collect_loop_spec. simpl. set (files := map _ _).
  destruct (process_files_spec files
              (mkReport (Z.of_nat (length files)) 0 0 [] (FailureCounts initial_report)) w)
    as (report & w' & tr & results & Hrun & Hres & Hproc & Htotal & Hok).
  simpl in Hrun. rewrite Hrun. exists report, w', tr. split_and!; try done.
  - by rewrite Hres.
  - apply Hok. apply initial_report_ok.
Qed.
End LoopFacts.

Section BatchFacts.
Context (os_ReadDir : string → list DirEntry * option error).
Context (filepath_Join : string → string → string).
Context {W M : Type} (runtime : WasmRuntime W M).

Lemma processor_returns filePath w :
  ∃ result w' tr, processWasmFileWithRuntime runtime filePath w = (Returned result, w', tr).
Proof.
  destruct (processWasmFileWithRuntime_returns runtime filePath w)
    as (result & w' & tr & Hrun & _). eauto.
Qed.

(** The results of a batch carry the paths of the files, in order. *)
Lemma processed_paths w files results w' :
  processed (processWasmFileWithRuntime runtime) w files results w' →
  map ER.FilePath results = files.
Proof.
  induction 1 as [|w f result w1 tr files results w' Hrun _ IH]; [done|]. simpl.
  destruct (processWasmFileWithRuntime_returns runtime f w)
    as (result' & w0 & tr' & Hrun' & _ & Hpath & _).
  rewrite Hrun in Hrun'. injection Hrun' as <- <- <-. by rewrite Hpath, IH.
Qed.
End BatchFacts.

(** C4.  The report returned by [runFuzzerWithRuntime], for every
    listing and every runtime: [passed + failed = totalFiles =
    length(results)], the values of [failureCounts] sum to [failed], and
    the four failure stages are keys of [failureCounts] with a value of
    at least zero. *)
Theorem report_counts_add_up (os_ReadDir : string → list DirEntry * option error)
    (filepath_Join : string → string → string) {W M : Type} (runtime : WasmRuntime W M)
    (dirPath : string) (w : W) :
  ∃ report err w' tr,
    runFuzzerWithRuntime os_ReadDir filepath_Join dirPath runtime w
      = (Returned (report, err), w', tr)
    ∧ Passed report + Failed report = TotalFiles report
    ∧ TotalFiles report = Z.of_nat (length (Results report))
    ∧ sum_counts (FailureCounts report) = Failed report
    ∧ ∀ stage, stage ∈ [StageLoad; StageValidate; StageInstantiate; StageExecute] →
        ∃ n, FailureCounts report !! stage = Some n ∧ 0 ≤ n.
Proof.
  unfold runFuzzerWithRuntime.
  pose proof (run_fuzzer_spec os_ReadDir filepath_Join _ (processor_returns runtime)
                dirPath w) as Hspec.
  assert (∀ report, report_ok report →
            ∀ stage, stage ∈ [StageLoad; StageValidate; StageInstantiate; StageExecute] →
              ∃ n, FailureCounts report !! stage = Some n ∧ 0 ≤ n) as Hkeys.
  { intros report (_ & _ & Hnonneg & Hpresent) stage Hin.
    destruct (Hpresent stage Hin) as [n Hn]. exists n. split; [done|]. by eapply Hnonneg. }
  destruct (os_ReadDir dirPath) as [entries [err|]].
  - rewrite Hspec. exists initial_report, (Some (fmt_Errorf_w "failed to read directory: " err)), w, [].
    destruct initial_report_ok as (Hsum & Hcount & _).
    split; [reflexivity|]. split; [exact Hsum|]. split; [reflexivity|].
    split; [exact Hcount|]. apply Hkeys, initial_report_ok.
  - cbn zeta in Hspec. destruct Hspec as (report & w' & tr & -> & Hproc & Htotal & Hok).
    exists report, None, w', tr. apply processed_length in Hproc.
    pose proof Hok as (Hsum & Hcount & _).
    split; [reflexivity|]. split; [lia|]. split; [lia|].
    split; [exact Hcount|]. apply Hkeys, Hok.
Qed.

Lemma report_counts_add_up_witness :
  ∃ report,
    fst (fst (runFuzzerWithRuntime example_ReadDir example_Join "corpus"
                trap_unreachable_runtime []))
      = Returned (report, None)
    ∧ TotalFiles report = 2 ∧ Failed report = 2
    ∧ FailureCounts report !! StageExecute = Some 2
    ∧ FailureCounts report !! StageLoad = Some 0.
Proof.
  destruct (report_counts_add_up example_ReadDir example_Join trap_unreachable_runtime
              "corpus" []) as (report & err & w' & tr & Hrun & _).
  vm_compute in Hrun. injection Hrun as <- <- <- <-.
  eexists. split; [vm_compute; reflexivity|]. split_and!; vm_compute; reflexivity.
Defined.

(** C6.  [runFuzzerWithRuntime] returns an error iff the listing does;
    it then returns the report as initialised, with no result, having
    made no call on the runtime.  Otherwise it returns no error and one
    result per discovered file, each file processed in turn from the
    state its predecessor left, whatever the outcome of any module: the
    batch neither panics nor stops before the last file. *)
Theorem batch_fails_only_on_discovery
    (os_ReadDir : string → list DirEntry * option error)
    (filepath_Join : string → string → string) {W M : Type} (runtime : WasmRuntime W M)
    (dirPath : string) (w : W) :
  ∃ report err w' tr,
    runFuzzerWithRuntime os_ReadDir filepath_Join dirPath runtime w
      = (Returned (report, err), w', tr)
    ∧ (is_Some err ↔ is_Some (snd (os_ReadDir dirPath)))
    ∧ (is_Some err → report = initial_report ∧ Results report = [] ∧ w' = w ∧ tr = [])
    ∧ (err = None →
         ∃ files,
           collectWasmFiles os_ReadDir filepath_Join dirPath = (files, None)
           ∧ processed (processWasmFileWithRuntime runtime) w files (Results report) w'
           ∧ length (Results report) = length files
           ∧ map ER.FilePath (Results report) = files).
Proof.
  unfold runFuzzerWithRuntime.
  pose proof (run_fuzzer_spec os_ReadDir filepath_Join _ (processor_returns runtime)
                dirPath w) as Hspec.
  unfold collectWasmFiles.
  destruct (os_ReadDir dirPath) as [entries [err|]]; simpl.
  - rewrite Hspec. eexists _, _, _, _. split; [reflexivity|].
    split; [split; eauto|]. split; [by intros _|]. intros [=].
  - destruct Hspec as (report & w' & tr & -> & Hproc & Htotal & Hok).
    exists report, None, w', tr. split; [reflexivity|].
    split; [split; by intros [? [=]]|]. split; [by intros [? [=]]|]. intros _.
    eexists. split; [by rewrite collect_loop_spec|].
    split; [exact Hproc|]. split; [by eapply processed_length|by eapply processed_paths].
Qed.

Lemma batch_fails_only_on_discovery_witness :
  ∃ report,
    fst (fst (runFuzzerWithRuntime example_ReadDir example_Join "corpus"
                panic_in_execute_runtime []))
      = Returned (report, None)
    ∧ map ER.FilePath (Results report)
      = ["corpus/01_valid_module.wasm"; "corpus/09_unreachable_trap.wasm"].
Proof.
  destruct (batch_fails_only_on_discovery example_ReadDir example_Join
              panic_in_execute_runtime "corpus" [])
    as (report & err & w' & tr & Hrun & Herr & _ & Hfiles).
  destruct err as [err|].
  - exfalso. destruct (proj1 Herr (ex_intro _ err eq_refl)) as [? Habs]. discriminate Habs.
  - exists report. rewrite Hrun. split; [reflexivity|].
    destruct (Hfiles eq_refl) as (files & Hcollect & _ & _ & Hpaths).
    rewrite Hpaths. vm_compute in Hcollect. by injection Hcollect as <-.
Defined.

(** C7.  When the listing succeeds, the files processed are the entries
    that are not directories and whose name has extension [.wasm] (ends
    with [.wasm]), joined to the directory, in the order of the listing;
    and for every [i] the [i]-th result is the result of the processor
    on the [i]-th of these files. *)
Theorem candidates_in_listing_order
    (os_ReadDir : string → list DirEntry * option error)
    (filepath_Join : string → string → string) {W M : Type} (runtime : WasmRuntime W M)
    (dirPath : string) (w : W) (entries : list DirEntry) :
  os_ReadDir dirPath = (entries, None) →
  let files := map (λ entry, filepath_Join dirPath (Name entry))
                   (List.filter is_candidate entries) in
  collectWasmFiles os_ReadDir filepath_Join dirPath = (files, None)
  ∧ (∀ entry, is_candidate entry = true
              ↔ IsDir entry = false ∧ ∃ stem, Name entry = stem +:+ ".wasm")
  ∧ ∃ report w' tr,
      runFuzzerWithRuntime os_ReadDir filepath_Join dirPath runtime w
        = (Returned (report, None), w', tr)
      ∧ length (Results report) = length files
      ∧ ∀ i filePath, files !! i = Some filePath →
          ∃ result wi wi' tri,
            Results report !! i = Some result
            ∧ processWasmFileWithRuntime runtime filePath wi = (Returned result, wi', tri)
            ∧ ER.FilePath result = filePath.
Proof.
  intros Hlist files. split_and!.
  - unfold collectWasmFiles. rewrite Hlist. by rewrite collect_loop_spec.
  - intros entry. unfold is_candidate.
    rewrite andb_true_iff, negb_true_iff, String.eqb_eq. by rewrite filepath_Ext_wasm.
  - unfold runFuzzerWithRuntime.
    pose proof (run_fuzzer_spec os_ReadDir filepath_Join _ (processor_returns runtime)
                  dirPath w) as Hspec.
    rewrite Hlist in Hspec. cbn zeta in Hspec.
    destruct Hspec as (report & w' & tr & Hrun & Hproc & _).
    exists report, w', tr. split; [exact Hrun|].
    split; [by eapply processed_length|].
    intros i filePath Hi.
    destruct (processed_lookup _ _ _ _ _ _ _ Hproc Hi)
      as (result & wi & wi' & tri & Hres & Hrun_i).
    exists result, wi, wi', tri. split_and!; [done..|].
    destruct (processWasmFileWithRuntime_returns runtime filePath wi)
      as (result' & w0 & tr' & Hrun' & _ & Hpath & _).
    rewrite Hrun_i in Hrun'. by injection Hrun' as <- <- <-.
Qed.

Lemma candidates_in_listing_order_witness :
  collectWasmFiles example_ReadDir example_Join "corpus"
  = (["corpus/01_valid_module.wasm"; "corpus/09_unreachable_trap.wasm"], None).
Proof.
  exact (proj1 (candidates_in_listing_order example_ReadDir example_Join
                  success_runtime "corpus" [] _ eq_refl)).
Defined.

(* ===================================================================== *)
(** ** The scenarios of the specification and the tests of the suite,
       run on the model *)
(* ===================================================================== *)

(** [filepath.Ext] and [filepath.Base]. *)
Example Ext_examples :
  filepath_Ext "01_valid_module.wasm" = ".wasm"
  ∧ filepath_Ext ".wasm" = ".wasm"
  ∧ filepath_Ext "module.wasm.bak" = ".bak"
  ∧ filepath_Ext "module.WASM" = ".WASM"
  ∧ filepath_Ext "README" = ""
  ∧ filepath_Ext "dir.wasm/module" = "".
Proof. by split_and!. Qed.

Example Base_examples :
  filepath_Base "/test/panic.wasm" = "panic.wasm"
  ∧ filepath_Base "corpus/" = "corpus"
  ∧ filepath_Base "" = "."
  ∧ filepath_Base "//" = "/".
Proof. by split_and!. Qed.

(** Scenario A: a module computing input + 1. *)
Example scenario_A :
  processWasmFile valid_module_engine "corpus/01_valid_module.wasm" ()
  = (Returned (ER.mk "corpus/01_valid_module.wasm" "01_valid_module.wasm"
                     true StageNone "" [int32 2]),
     (),
     [Call SdkNewConfigure; Call SdkNewLoader;
      Call (SdkLoadFile "corpus/01_valid_module.wasm");
      Call SdkNewValidator; Call SdkValidate; Call SdkNewStore; Call SdkNewExecutor;
      Call SdkInstantiate; Call (SdkFindFunction "process"); Call (SdkInvoke [int32 1]);
      Call SdkModuleRelease; Call SdkExecutorRelease; Call SdkStoreRelease;
      Call SdkValidatorRelease; Call SdkASTRelease; Call SdkLoaderRelease;
      Call SdkConfigureRelease]).
Proof. reflexivity. Qed.

(** Scenario B: a zero-byte file. *)
Example scenario_B :
  fst (fst (processWasmFile
              (scripted_engine (Some (errors_New "unexpected end")) None None true
                               (Returned ([], None)))
              "corpus/02_empty.wasm" ()))
  = Returned (ER.mk "corpus/02_empty.wasm" "02_empty.wasm" false StageLoad
                    "load failed: unexpected end" []).
Proof. reflexivity. Qed.

(** Scenario C: no export named [process]. *)
Example scenario_C :
  fst (fst (processWasmFile (scripted_engine None None None false (Returned ([], None)))
              "corpus/04_missing_export.wasm" ()))
  = Returned (ER.mk "corpus/04_missing_export.wasm" "04_missing_export.wasm" false
                    StageExecute "function 'process' not found in module exports" []).
Proof. reflexivity. Qed.

(** Scenario D: [process] executes [unreachable]. *)
Example scenario_D :
  fst (fst (processWasmFile
              (scripted_engine None None None true
                               (Returned ([], Some (errors_New "unreachable"))))
              "corpus/09_unreachable_trap.wasm" ()))
  = Returned (ER.mk "corpus/09_unreachable_trap.wasm" "09_unreachable_trap.wasm" false
                    StageExecute "execution failed: unreachable" []).
Proof. reflexivity. Qed.

(** A panic of the engine inside [Invoke]: recovered after the seven
    releases. *)
Example engine_panic :
  let '(outcome, _, tr) :=
    processWasmFile
      (scripted_engine None None None true (Panicked (PanicOther "42")))
      "corpus/10_memory_oob.wasm" () in
  outcome = Returned (ER.mk "corpus/10_memory_oob.wasm" "10_memory_oob.wasm" false
                            StageExecute "panic recovered: 42" [])
  ∧ raised_values tr = [PanicOther "42"]
  ∧ recovered_values tr = [PanicOther "42"]
  ∧ length (calls_made tr) = 17%nat.
Proof. vm_compute. by split_and!. Qed.

(** Scenario E, [TestResourceCleanup_OnPanic]: a panic inside
    [Execute]; [Close] is still called. *)
Example scenario_E :
  processWasmFileWithRuntime panic_in_execute_runtime "/test/panic_cleanup.wasm" []
  = (Returned (ER.mk "/test/panic_cleanup.wasm" "panic_cleanup.wasm" false StageExecute
                     "panic recovered: test panic" []),
     [0%nat],
     [Call (CallLoadModule "/test/panic_cleanup.wasm");
      Call (CallExecute 0%nat "process" [int32 1]);
      Raised (PanicString "test panic");
      Call (CallClose 0%nat);
      Recovered (PanicString "test panic")]).
Proof. reflexivity. Qed.

(** [TestNoFault_SuccessPath]. *)
Example test_success_path :
  processWasmFileWithRuntime success_runtime "/test/valid.wasm" []
  = (Returned (ER.mk "/test/valid.wasm" "valid.wasm" true StageNone "" [int32 42]),
     [0%nat],
     [Call (CallLoadModule "/test/valid.wasm");
      Call (CallExecute 0%nat "process" [int32 1]);
      Call (CallClose 0%nat)]).
Proof. reflexivity. Qed.

(** [TestFaultInjection_LoadError], case [generic_io_error]. *)
Example test_generic_io_error :
  processWasmFileWithRuntime generic_io_error_runtime "/test/malformed.wasm" []
  = (Returned (ER.mk "/test/malformed.wasm" "malformed.wasm" false StageLoad
                     "load failed: read error: permission denied" []),
     [], [Call (CallLoadModule "/test/malformed.wasm")]).
Proof. reflexivity. Qed.

(** [TestFaultInjection_ExecutionError], case [trap_unreachable]. *)
Example test_trap_unreachable :
  processWasmFileWithRuntime trap_unreachable_runtime "/test/injected.wasm" []
  = (Returned (ER.mk "/test/injected.wasm" "injected.wasm" false StageExecute
                     "execution failed: unreachable executed" []),
     [0%nat],
     [Call (CallLoadModule "/test/injected.wasm");
      Call (CallExecute 0%nat "process" [int32 1]);
      Call (CallClose 0%nat)]).
Proof. reflexivity. Qed.

(** [LoadModule] returns [(nil, nil)]: the deferred [module.Close()]
    panics on the nil interface, and the panic is recovered. *)
Example nil_module :
  fst (fst (processWasmFileWithRuntime nil_module_runtime "/test/nil.wasm" []))
  = Returned (ER.mk "/test/nil.wasm" "nil.wasm" false StageExecute
                "panic recovered: runtime error: invalid memory address or nil pointer dereference"
                []).
Proof. reflexivity. Qed.

(** A [RuntimeError] with an empty [Message]: the failed result has no
    [error_message]. *)
Example empty_message :
  fst (fst (processWasmFileWithRuntime empty_message_runtime "/test/malformed.wasm" []))
    = Returned (ER.mk "/test/malformed.wasm" "malformed.wasm" false StageLoad "" [])
  ∧ ER.error_message_present
      (ER.mk "/test/malformed.wasm" "malformed.wasm" false StageLoad "" []) = false.
Proof. split; reflexivity. Qed.

(** [Close] panics after [Execute] returned values: the recovery closure
    leaves [ReturnValues] as they are. *)
Example values_kept_after_close_panic :
  fst (fst (processWasmFileWithRuntime values_then_faulty_close_runtime "/test/valid.wasm" []))
  = Returned (ER.mk "/test/valid.wasm" "valid.wasm" false StageExecute
                    "panic recovered: close failed" [int32 42]).
Proof. reflexivity. Qed.

(** A batch over the example listing: the trap fails both modules at
    [execute]; a directory that cannot be read gives the error and the
    initial report. *)
Example batch_of_traps :
  let '(outcome, w', _) :=
    runFuzzerWithRuntime example_ReadDir example_Join "corpus" trap_unreachable_runtime [] in
  ∃ report,
    outcome = Returned (report, None)
    ∧ (TotalFiles report, Passed report, Failed report) = (2, 0, 2)
    ∧ map ER.FileName (Results report)
      = ["01_valid_module.wasm"; "09_unreachable_trap.wasm"]
    ∧ (λ stage, FailureCounts report !! stage)
        <$> [StageLoad; StageValidate; StageInstantiate; StageExecute; StageNone]
      = [Some 0; Some 0; Some 0; Some 2; None]
    ∧ w' = [0%nat; 0%nat].
Proof.
  vm_compute. eexists. split; [reflexivity|]. vm_compute. by split_and!.
Qed.

Example batch_unreadable_directory :
  runFuzzerWithRuntime example_ReadDir example_Join "missing" success_runtime []
  = (Returned (initial_report,
               Some (fmt_Errorf_w "failed to read directory: "
                       (errors_New "open missing: no such file or directory"))),
     [], []).
Proof. vm_compute. reflexivity. Qed.

(* ===================================================================== *)
(** * Further properties of the code *)
(* ===================================================================== *)

Section PipelineFacts.
Context {W : Type} (sdk : WasmEdge W) (filePath : string).

Lemma calls_made_app {E : Type} (tr1 tr2 : list (entry E)) :
  calls_made (tr1 ++ tr2) = calls_made tr1 ++ calls_made tr2.
Proof. apply omap_app. Qed.

(** The deferred calls are all made, in the order of the stack, whether
    they return or panic. *)
Lemma run_defers_calls {E : Type} (ds : list (deferred W E)) p r w :
  calls_made (run_defers ds p r w).2 = release_labels ds.
Proof.
  revert p r w. induction ds as [|d ds IH]; intros p r w; [done|].
  destruct d as [|label call]; simpl.
  - destruct p as [v|]; [|apply IH].
    specialize (IH None (recover_handler v r) w).
    by destruct (run_defers ds None (recover_handler v r) w) as [[[??]?]?].
  - destruct (call w) as [[[]|v] w1].
    + specialize (IH p r w1). destruct (run_defers ds p r w1) as [[[??]?]?].
      simpl in *. by rewrite IH.
    + specialize (IH (Some v) r w1). destruct (run_defers ds (Some v) r w1) as [[[??]?]?].
      simpl in *. by rewrite IH.
Qed.

Local Ltac exit_done :=
  intros [= <- <-]; cbn -[filepath_Base];
  split; [eexists; reflexivity|]; split; [reflexivity|];
  split; [first [reflexivity | by repeat split]|];
  first [by intros [=] | intros _; eauto 10].

(** Run the next call of the body: it panics (an exit) or returns. *)
Local Ltac run_call :=
  match goal with
  | |- context [match ?c with pair _ _ => _ end] =>
      match type of c with
      | (outcome _ * _)%type =>
          destruct c as [[?|?] ?] eqn:?; cbn -[filepath_Base]; [|exit_done]
      end
  end.

(** The pair a call returned. *)
Local Ltac split_pair :=
  match goal with
  | |- context [match ?x with pair _ _ => _ end] => destruct x; cbn -[filepath_Base]
  end.

(** The error returned, if any: an exit, or the body goes on. *)
Local Ltac on_error :=
  match goal with
  | |- context [match ?e with Some _ => _ | None => _ end] =>
      destruct e; cbn -[filepath_Base]; [exit_done|]
  end.

(** Every exit of the stages: the calls made are a prefix of the
    pipeline, the stack holds the releases owed for them, [result] is
    as at entry after a panic and attributed after a [return], and the
    values of a success are those [Invoke] returned. *)
Lemma processWasmFile_stages_exits (w : W) fl fr :
  processWasmFile_stages sdk filePath (mkFrame (entry_result filePath) [DeferRecover] w [])
    = (fl, fr) →
  calls_made (fr_trace fr) `prefix_of` pipeline filePath
  ∧ release_labels (fr_defers fr) = owed (calls_made (fr_trace fr))
  ∧ match fl with
    | Panic _ => fr_result fr = entry_result filePath
    | _ => returned_ok (fr_result fr) (calls_made (fr_trace fr))
    end
  ∧ (ER.Success (fr_result fr) = true →
       ∃ executor funcInstance wi wj,
         Executor_Invoke W sdk executor funcInstance [int32 1] wi
         = (Returned (ER.ReturnValues (fr_result fr), None), wj)).
Proof.
  unfold processWasmFile_stages, fail_with, mbind, body_bind, mret, body_ret,
    call, defer, assign, return_result.
  cbn -[filepath_Base].
  run_call. run_call. run_call. split_pair. on_error.
  run_call. run_call. on_error. run_call. run_call. run_call. split_pair. on_error.
  run_call.
  match goal with |- context [match ?x with Some _ => _ | None => _ end] =>
    destruct x as [funcInstance|] end; cbn -[filepath_Base]; [|exit_done].
  run_call. split_pair. on_error. exit_done.
Qed.

(** A whole call of [processWasmFile], read off its trace: the calls
    made before the releases are a prefix of the pipeline, then come the
    releases owed for them; with no panic raised [result] is the one
    the body returned. *)
Lemma processWasmFile_run (w : W) :
  ∃ result w' tr work,
    processWasmFile sdk filePath w = (Returned result, w', tr)
    ∧ work `prefix_of` pipeline filePath
    ∧ calls_made tr = work ++ owed work
    ∧ (raised_values tr = [] → returned_ok result work)
    ∧ (raised_values tr ≠ [] →
         ER.Success result = false ∧ ER.error_message_present result = true)
    ∧ (ER.Success result = true →
         ∃ executor funcInstance wi wj,
           Executor_Invoke W sdk executor funcInstance [int32 1] wi
           = (Returned (ER.ReturnValues result, None), wj)).
Proof.
  unfold processWasmFile, run_function.
  pose proof (processWasmFile_body_post sdk filePath w) as Hpost.
  pose proof (processWasmFile_stages_exits w) as Hexits.
  change (processWasmFile_stages sdk filePath
            (mkFrame (entry_result filePath) [DeferRecover] w []))
    with (processWasmFile_body sdk filePath (mkFrame ER.zero [] w [])) in Hexits.
  destruct (processWasmFile_body sdk filePath _) as [fl fr].
  destruct (Hpost _ _ eq_refl) as (Hwf & _).
  destruct (Hexits _ _ eq_refl) as (Hprefix & Hlabels & Hres & Hvalues).
  pose proof (run_defers_calls (fr_defers fr) (flow_panic fl) (fr_result fr) (fr_world fr))
    as Hcalls.
  destruct (leave_summary _ _ _ _ _ Hwf)
    as (result & w' & tr_all & Hleave & _ & _ & _ & Hkeep & Hnone & Hsome).
  assert (flow_panic fl = match fl with Panic v => Some v | _ => None end) as Hfl
    by by destruct fl.
  rewrite <- Hfl. rewrite Hleave.
  exists result, w', tr_all, (calls_made (fr_trace fr)).
  unfold leave in Hleave.
  destruct (run_defers _ _ _ _) as [[[p r] w1] tr'] eqn:Hrun. simpl in Hcalls.
  injection Hleave as _ _ <-.
  split_and!; try done.
  - by rewrite calls_made_app, Hcalls, Hlabels.
  - intros Hnil. destruct (Hnone Hnil) as [-> Hp]. by destruct fl.
  - intros Hne. by destruct (Hsome Hne) as [v ->].
  - intros Hs. destruct (decide (raised_values (fr_trace fr ++ tr') = [])) as [Hnil|Hne].
    + destruct (Hnone Hnil) as [-> _]. by apply Hvalues.
    + by destruct (Hsome Hne) as [v ->].
Qed.
End PipelineFacts.


(** X2.  With no panic raised, the result of [processWasmFile] is
    attributed to the last call of the pipeline that was made: a
    failure has the stage of that call ([LoadFile]: load, [Validate]:
    validate, [Instantiate]: instantiate, [FindFunction] and [Invoke]:
    execute), a message and no values; a success comes only after
    [Invoke], with the stage [none] and no message. *)
Theorem wasmedge_stage_attribution {W : Type} (sdk : WasmEdge W)
    (filePath : string) (w : W) (result : ER.t) (w' : W) (tr : list (entry sdk_call)) :
  processWasmFile sdk filePath w = (Returned result, w', tr) →
  raised_values tr = [] →
  ∃ work,
    work `prefix_of` pipeline filePath
    ∧ calls_made tr = work ++ owed work
    ∧ if ER.Success result
      then last work = Some (SdkInvoke [int32 1])
           ∧ ER.FailureStage result = StageNone
           ∧ ER.ErrorMessage result = ""
      else last work ≫= stage_of_call = Some (ER.FailureStage result)
           ∧ ER.ErrorMessage result ≠ ""
           ∧ ER.ReturnValues result = [].
Proof.
  intros Hrun Hnil.
  destruct (processWasmFile_run sdk filePath w)
    as (result' & w1 & tr' & work & Hrun' & Hprefix & Hcalls & Hok & _).
  rewrite Hrun in Hrun'. injection Hrun' as <- <- <-.
  exists work. split_and!; [done..|]. by apply Hok.
Qed.

Lemma wasmedge_stage_attribution_witness :
  ∃ work,
    work `prefix_of` pipeline "corpus/08_invalid_opcode.wasm"
    ∧ last work ≫= stage_of_call = Some StageValidate.
Proof.
  destruct (processWasmFile
              (scripted_engine None (Some (errors_New "invalid opcode")) None true
                               (Returned ([], None)))
              "corpus/08_invalid_opcode.wasm" ())
    as [[[result|v] w'] tr] eqn:Hrun; [|by vm_compute in Hrun].
  assert (raised_values tr = [] ∧ ER.Success result = false
          ∧ ER.FailureStage result = StageValidate) as (Hnil & Hs & Hstage).
  { vm_compute in Hrun. by injection Hrun as <- <- <-. }
  destruct (wasmedge_stage_attribution _ _ _ _ _ _ Hrun Hnil)
    as (work & Hprefix & _ & Hres).
  rewrite Hs, Hstage in Hres. exists work. split; [exact Hprefix|exact (proj1 Hres)].
Defined.

(** X3.  For every result of [processWasmFile], the key [error_message]
    is written iff [success] is false.  The values of a success are
    those [Invoke] returned. *)
Theorem wasmedge_error_message_iff_failure {W : Type} (sdk : WasmEdge W)
    (filePath : string) (w : W) :
  ∃ result w' tr,
    processWasmFile sdk filePath w = (Returned result, w', tr)
    ∧ ER.error_message_present result = negb (ER.Success result)
    ∧ (ER.Success result = true →
         ∃ executor funcInstance wi wj,
           Executor_Invoke W sdk executor funcInstance [int32 1] wi
           = (Returned (ER.ReturnValues result, None), wj)).
Proof.
  destruct (processWasmFile_run sdk filePath w)
    as (result & w' & tr & work & Hrun & _ & _ & Hok & Hpanic & Hvalues).
  exists result, w', tr. split_and!; [done| |done].
  destruct (decide (raised_values tr = [])) as [Hnil|Hne].
  - specialize (Hok Hnil). unfold returned_ok, ER.error_message_present in *.
    destruct (ER.Success result).
    + by destruct Hok as (_ & _ & ->).
    + destruct Hok as (_ & Hmsg & _). simpl.
      by apply negb_true_iff, String.eqb_neq.
  - destruct (Hpanic Hne) as [-> ->]. done.
Qed.

Section CountingFacts.
Implicit Types (report : FuzzingReport) (result : ER.t) (results : list ER.t).

Lemma count_results_snoc test results result :
  count_results test (results ++ [result])
  = count_results test results + (if test result then 1 else 0).
Proof.
  unfold count_results. rewrite List.filter_app, length_app, Nat2Z.inj_add. simpl.
  by destruct (test result).
Qed.

Lemma count_results_nonneg test results : 0 ≤ count_results test results.
Proof. unfold count_results. lia. Qed.

Lemma initial_counts_exact total :
  counts_exact (mkReport total 0 0 [] (FailureCounts initial_report)).
Proof.
  unfold counts_exact, count_results. simpl. split_and!; [done..|]. intros stage.
  unfold initial_report, StageLoad, StageValidate, StageInstantiate, StageExecute. simpl.
  rewrite !elem_of_cons, elem_of_nil.
  destruct (decide (stage = "execute")) as [->|?].
  { rewrite lookup_insert_eq. split; [reflexivity|]. split; [|by eauto].
    intros _. left. repeat first [left; reflexivity | right]. }
  rewrite lookup_insert_ne by done.
  destruct (decide (stage = "instantiate")) as [->|?].
  { rewrite lookup_insert_eq. split; [reflexivity|]. split; [|by eauto].
    intros _. left. repeat first [left; reflexivity | right]. }
  rewrite lookup_insert_ne by done.
  destruct (decide (stage = "validate")) as [->|?].
  { rewrite lookup_insert_eq. split; [reflexivity|]. split; [|by eauto].
    intros _. left. repeat first [left; reflexivity | right]. }
  rewrite lookup_insert_ne by done.
  destruct (decide (stage = "load")) as [->|?].
  { rewrite lookup_insert_eq. split; [reflexivity|]. split; [|by eauto].
    intros _. left. repeat first [left; reflexivity | right]. }
  rewrite lookup_insert_ne, lookup_empty by done. simpl.
  split; [done|]. split; [by intros [? [=]]|]. intros [[|[|[|[|[]]]]]|?]; done || lia.
Qed.

(** One iteration keeps the counters exact. *)
Lemma record_result_counts_exact result report :
  counts_exact report → counts_exact (record_result result report).
Proof.
  intros (Hpassed & Hfailed & Hcounts). unfold counts_exact, record_result.
  destruct (ER.Success result) eqn:Hs; simpl; rewrite !count_results_snoc, Hs; simpl.
  - split_and!; [lia|lia|]. intros stage. rewrite !count_results_snoc.
    assert (failed_at stage result = false) as -> by (unfold failed_at; by rewrite Hs).
    rewrite Z.add_0_r. apply Hcounts.
  - split_and!; [lia|lia|]. intros stage. rewrite !count_results_snoc.
    assert (failed_at stage result = String.eqb (ER.FailureStage result) stage) as ->
      by (unfold failed_at; by rewrite Hs).
    destruct (Hcounts stage) as [Hn Hkey]. rewrite increment_lookup.
    pose proof (count_results_nonneg (failed_at stage) (Results report)).
    destruct (decide (ER.FailureStage result = stage)) as [->|Hne].
    + rewrite String.eqb_refl. simpl.
      destruct (Hcounts stage) as [-> _].
      split; [lia|]. split; [intros _; right; lia|eauto].
    + apply String.eqb_neq in Hne. rewrite Hne, !Z.add_0_r. done.
Qed.
End CountingFacts.

Section LoopInvariants.
Context {W E : Type} (process : string → W → outcome ER.t * W * list (entry E)).

(** Whatever one iteration keeps, the loop keeps. *)
Lemma process_files_keeps (I : FuzzingReport → Prop) :
  (∀ result report, I report → I (record_result result report)) →
  ∀ files report w report' w' tr,
    process_files process files report w = (Returned report', w', tr) →
    I report → I report'.
Proof.
  intros Hstep files. induction files as [|filePath files IH];
    intros report w report' w' tr; simpl.
  - by intros [= <- _ _].
  - destruct (process filePath w) as [[[result|v] w1] tr1]; [|done].
    destruct (process_files process files (record_result result report) w1)
      as [[o w2] tr2] eqn:Hrest.
    intros [= -> _ _] Hreport. eapply IH; [exact Hrest|]. by apply Hstep.
Qed.

(** The trace of the loop is the traces of the files, one after the
    other. *)
Lemma process_files_traces files report w report' w' tr :
  process_files process files report w = (Returned report', w', tr) →
  ∃ trs,
    tr = concat trs
    ∧ Forall2 (λ filePath t, ∃ wi result wi', process filePath wi = (Returned result, wi', t))
              files trs.
Proof.
  revert report w report' w' tr. induction files as [|filePath files IH];
    intros report w report' w' tr; simpl.
  - intros [= _ _ <-]. by exists [].
  - destruct (process filePath w) as [[[result|v] w1] tr1] eqn:Hrun; [|done].
    destruct (process_files process files (record_result result report) w1)
      as [[o w2] tr2] eqn:Hrest.
    intros [= -> _ <-]. destruct (IH _ _ _ _ _ Hrest) as (trs & -> & Htrs).
    exists (tr1 :: trs). split; [done|]. constructor; [eauto|done].
Qed.

Lemma processed_Forall (P : ER.t → Prop) w files results w' :
  (∀ filePath wi result wi' t, process filePath wi = (Returned result, wi', t) → P result) →
  processed process w files results w' → Forall P results.
Proof. intros HP. induction 1; constructor; eauto. Qed.
End LoopInvariants.

Section BatchExtras.
Context (os_ReadDir : string → list DirEntry * option error).
Context (filepath_Join : string → string → string).

(** The report of [run_fuzzer], in either case of discovery, when the
    loop returns. *)
Lemma run_fuzzer_report {W E : Type}
    (process : string → W → outcome ER.t * W * list (entry E)) dirPath w report err w' tr :
  run_fuzzer os_ReadDir filepath_Join process dirPath w = (Returned (report, err), w', tr) →
  (is_Some err ∧ report = initial_report ∧ w' = w ∧ tr = [])
  ∨ (err = None
     ∧ ∃ files,
         collectWasmFiles os_ReadDir filepath_Join dirPath = (files, None)
         ∧ process_files process files
             (mkReport (Z.of_nat (length files)) 0 0 [] (FailureCounts initial_report)) w
           = (Returned report, w', tr)).
Proof.
  unfold run_fuzzer.
  destruct (collectWasmFiles os_ReadDir filepath_Join dirPath) as [files [e|]].
  - intros [= <- <- <- <-]. left. eauto.
  - simpl. destruct (process_files _ _ _ _) as [[[report0|v] w0] tr0] eqn:Hloop; [|done].
    intros [= <- <- <- <-]. right. split; [done|]. by exists files.
Qed.

(** [run_fuzzer] returns when its processor does. *)
Lemma run_fuzzer_returns {W E : Type}
    (process : string → W → outcome ER.t * W * list (entry E)) dirPath w :
  (∀ filePath wi, ∃ result wi' t, process filePath wi = (Returned result, wi', t)) →
  ∃ report err w' tr,
    run_fuzzer os_ReadDir filepath_Join process dirPath w = (Returned (report, err), w', tr).
Proof.
  intros Hret.
  pose proof (run_fuzzer_spec os_ReadDir filepath_Join process Hret dirPath w) as Hspec.
  destruct (os_ReadDir dirPath) as [entries [e|]]; [eauto|].
  cbn zeta in Hspec. destruct Hspec as (report & w' & tr & Hrun & _). eauto.
Qed.

End BatchExtras.

(** X4.  In the report of [runFuzzerWithRuntime], [passed] is the number
    of successful results, [failed] the number of failed ones, and for
    every stage, named or not, [failureCounts] at that stage (0 for a
    missing key) is the number of failed results with that stage; a
    key is present iff it is one of the four failure stages or the
    stage of some failed result. *)
Theorem report_counters_are_exact (os_ReadDir : string → list DirEntry * option error)
    (filepath_Join : string → string → string) {W M : Type} (runtime : WasmRuntime W M)
    (dirPath : string) (w : W) :
  ∃ report err w' tr,
    runFuzzerWithRuntime os_ReadDir filepath_Join dirPath runtime w
      = (Returned (report, err), w', tr)
    ∧ Passed report = count_results ER.Success (Results report)
    ∧ Failed report = count_results (λ r, negb (ER.Success r)) (Results report)
    ∧ ∀ stage,
        default 0 (FailureCounts report !! stage)
          = count_results (failed_at stage) (Results report)
        ∧ (is_Some (FailureCounts report !! stage)
           ↔ stage ∈ [StageLoad; StageValidate; StageInstantiate; StageExecute]
             ∨ 0 < count_results (failed_at stage) (Results report)).
Proof.
  destruct (run_fuzzer_returns os_ReadDir filepath_Join
              (processWasmFileWithRuntime runtime) dirPath w (processor_returns runtime))
    as (report & err & w' & tr & Hrun).
  exists report, err, w', tr. split; [exact Hrun|].
  change (counts_exact report).
  apply run_fuzzer_report in Hrun as [(_ & -> & _ & _)|(_ & files & _ & Hloop)].
  - apply (initial_counts_exact 0).
  - eapply process_files_keeps; [|exact Hloop|apply initial_counts_exact].
    intros. by apply record_result_counts_exact.
Qed.

Section BatchExtras2.
Context (os_ReadDir : string → list DirEntry * option error).
Context (filepath_Join : string → string → string).

(** The results of a returned batch: none on a discovery error,
    otherwise those of the files in order. *)
Lemma run_fuzzer_results {W E : Type}
    (process : string → W → outcome ER.t * W * list (entry E)) dirPath w report err w' tr :
  (∀ filePath wi, ∃ result wi' t, process filePath wi = (Returned result, wi', t)) →
  run_fuzzer os_ReadDir filepath_Join process dirPath w = (Returned (report, err), w', tr) →
  ∃ files trs,
    processed process w files (Results report) w'
    ∧ tr = concat trs
    ∧ Forall2 (λ filePath t, ∃ wi result wi', process filePath wi = (Returned result, wi', t))
              files trs
    ∧ (is_Some err → files = [])
    ∧ (err = None → collectWasmFiles os_ReadDir filepath_Join dirPath = (files, None)).
Proof.
  intros Hret Hrun.
  apply run_fuzzer_report in Hrun as [(Herr & -> & -> & ->)|(-> & files & Hcollect & Hloop)].
  - exists [], []. split_and!; [constructor|done|constructor|done|].
    intros ->. by destruct Herr.
  - destruct (process_files_traces _ _ _ _ _ _ _ Hloop) as (trs & -> & Htrs).
    destruct (process_files_spec process Hret files
                (mkReport (Z.of_nat (length files)) 0 0 [] (FailureCounts initial_report)) w)
      as (report' & w0 & tr0 & results & Hloop' & Hres & Hproc & _).
    rewrite Hloop in Hloop'. injection Hloop' as <- <- _.
    exists files, trs. simpl in Hres. rewrite Hres.
    split_and!; [done..|by intros [? [=]]|done].
Qed.
End BatchExtras2.


Section IntegrationBatch.
Context {W : Type} (sdk : WasmEdge W).

Lemma processWasmFile_always_returns filePath w :
  ∃ result w' tr, processWasmFile sdk filePath w = (Returned result, w', tr).
Proof.
  destruct (processWasmFile_returns sdk filePath w) as (result & w' & tr & Hrun & _). eauto.
Qed.

(** A result of [processWasmFile] satisfies the invariant of the data
    model, and a failure has one of the four failure stages. *)
Lemma processWasmFile_stage_closed filePath w result w' tr :
  processWasmFile sdk filePath w = (Returned result, w', tr) →
  success_iff_none result
  ∧ (ER.Success result = false →
       ER.FailureStage result ∈ [StageLoad; StageValidate; StageInstantiate; StageExecute]).
Proof.
  intros Hrun.
  destruct (processWasmFile_returns sdk filePath w)
    as (result1 & w1 & tr1 & Hrun1 & Hcontained & _ & _ & Hinv).
  rewrite Hrun in Hrun1. injection Hrun1 as <- <- <-. split; [done|]. intros Hs.
  destruct (processWasmFile_run sdk filePath w)
    as (result2 & w2 & tr2 & work & Hrun2 & _ & _ & Hok & _).
  rewrite Hrun in Hrun2. injection Hrun2 as <- <- <-.
  unfold contained in Hcontained.
  destruct (last (raised_values tr)) as [v|] eqn:Hlast.
  - destruct Hcontained as (_ & _ & _ & -> & _). set_solver.
  - apply last_None in Hlast. specialize (Hok Hlast). unfold returned_ok in Hok.
    rewrite Hs in Hok. destruct Hok as (Hstage & _).
    destruct (last work) as [c|]; [|done]. simpl in Hstage.
    destruct c; simplify_eq/=; set_solver.
Qed.
End IntegrationBatch.

(** X6.  [runFuzzer], the batch runner of the integration build: it
    never panics and returns an error iff the listing does; its
    counters add up; every result has [success] iff [stage = none]; and
    the keys of [failureCounts] are exactly the four failure stages,
    since a failure of [processWasmFile] always has one of them. *)
Theorem runFuzzer_report (os_ReadDir : string → list DirEntry * option error)
    (filepath_Join : string → string → string) {W : Type} (sdk : WasmEdge W)
    (dirPath : string) (w : W) :
  ∃ report err w' tr,
    runFuzzer os_ReadDir filepath_Join sdk dirPath w = (Returned (report, err), w', tr)
    ∧ (is_Some err ↔ is_Some (snd (os_ReadDir dirPath)))
    ∧ Passed report + Failed report = TotalFiles report
    ∧ TotalFiles report = Z.of_nat (length (Results report))
    ∧ sum_counts (FailureCounts report) = Failed report
    ∧ Forall success_iff_none (Results report)
    ∧ ∀ stage, is_Some (FailureCounts report !! stage)
               ↔ stage ∈ [StageLoad; StageValidate; StageInstantiate; StageExecute].
Proof.
  unfold runFuzzer.
  pose proof (run_fuzzer_spec os_ReadDir filepath_Join _
                (processWasmFile_always_returns sdk) dirPath w) as Hspec.
  destruct (os_ReadDir dirPath) as [entries [e|]] eqn:Hlist; simpl.
  - rewrite Hspec. eexists _, _, _, _. split; [reflexivity|].
    destruct initial_report_ok as (Hsum & Hcount & _).
    destruct (initial_counts_exact 0) as (_ & _ & Hkeys).
    split_and!; [split; eauto|exact Hsum|reflexivity|exact Hcount|constructor|].
    intros stage. destruct (Hkeys stage) as [_ ->]. unfold count_results. simpl.
    split; [intros [?|?]; [done|lia]|by left].
  - cbn zeta in Hspec. destruct Hspec as (report & w' & tr & Hrun & Hproc & Htotal & Hok).
    exists report, None, w', tr. split; [exact Hrun|].
    pose proof Hok as (Hsum & Hcount & _).
    pose proof (processed_length _ _ _ _ _ Hproc) as Hlen.
    assert (Forall (λ r, success_iff_none r
                         ∧ (ER.Success r = false →
                            ER.FailureStage r ∈ [StageLoad; StageValidate; StageInstantiate;
                                                 StageExecute]))
                   (Results report)) as Hall.
    { eapply processed_Forall; [|exact Hproc]. intros ?????. apply processWasmFile_stage_closed. }
    split_and!; [split; by intros [? [=]]|lia|lia|exact Hcount| |].
    + eapply Forall_impl; [exact Hall|]. by intros r [? _].
    + apply run_fuzzer_report in Hrun as [([? [=]] & _)|(_ & files & _ & Hloop)].
      assert (counts_exact report) as (_ & _ & Hkeys).
      { eapply process_files_keeps; [|exact Hloop|apply initial_counts_exact].
        intros. by apply record_result_counts_exact. }
      intros stage. destruct (Hkeys stage) as [_ ->].
      split; [|by left]. intros [?|Hpos]; [done|].
      unfold count_results in Hpos.
      destruct (List.filter (failed_at stage) (Results report)) as [|r rs] eqn:Hf;
        [simpl in Hpos; lia|].
      assert (In r (List.filter (failed_at stage) (Results report))) as Hin
        by (rewrite Hf; by left).
      apply List.filter_In in Hin as [Hin Hfailed].
      apply list_elem_of_In in Hin. rewrite Forall_forall in Hall.
      destruct (Hall r Hin) as [_ Hstage].
      unfold failed_at in Hfailed. apply andb_true_iff in Hfailed as [Hs Heq].
      apply negb_true_iff in Hs. apply String.eqb_eq in Heq. subst stage. by apply Hstage.
Qed.

(** X7.  When the base name of every joined candidate path is the name
    of its entry, as it is for [filepath.Join] and the plain names a
    listing returns, the [file_name] fields of the results are the
    names of the candidate entries, in the order of the listing. *)
Theorem file_names_are_entry_names (os_ReadDir : string → list DirEntry * option error)
    (filepath_Join : string → string → string) {W M : Type} (runtime : WasmRuntime W M)
    (dirPath : string) (w : W) (entries : list DirEntry) :
  os_ReadDir dirPath = (entries, None) →
  Forall (λ entry, filepath_Base (filepath_Join dirPath (Name entry)) = Name entry) entries →
  ∃ report w' tr,
    runFuzzerWithRuntime os_ReadDir filepath_Join dirPath runtime w
      = (Returned (report, None), w', tr)
    ∧ map ER.FileName (Results report) = map Name (List.filter is_candidate entries).
Proof.
  intros Hlist Hbase. unfold runFuzzerWithRuntime.
  pose proof (run_fuzzer_spec os_ReadDir filepath_Join _ (processor_returns runtime)
                dirPath w) as Hspec.
  rewrite Hlist in Hspec. cbn zeta in Hspec.
  destruct Hspec as (report & w' & tr & Hrun & Hproc & _).
  exists report, w', tr. split; [exact Hrun|].
  assert (Forall (λ entry, filepath_Base (filepath_Join dirPath (Name entry)) = Name entry)
                 (List.filter is_candidate entries)) as Hbase'.
  { rewrite Forall_forall in *. intros entry Hin. apply Hbase.
    apply list_elem_of_In in Hin. apply List.filter_In in Hin as [Hin _].
    by apply list_elem_of_In. }
  clear Hbase Hlist Hrun. revert Hproc Hbase'.
  generalize (Results report) (List.filter is_candidate entries) w.
  intros results candidates. revert results.
  induction candidates as [|entry candidates IH]; intros results w0 Hproc Hbase; simpl in *.
  - by inversion Hproc.
  - inversion Hproc as [|? fp result w1 tr1 files results' ? Hrun Hrest]; subst.
    apply Forall_cons in Hbase as [Hentry Hbase]. simpl. f_equal.
    + destruct (processWasmFileWithRuntime_returns runtime
                  (filepath_Join dirPath (Name entry)) w0)
        as (result' & w2 & tr2 & Hrun' & _ & _ & Hname & _).
      rewrite Hrun in Hrun'. injection Hrun' as <- <- <-. by rewrite Hname.
    + by eapply IH.
Qed.

Lemma file_names_are_entry_names_witness :
  ∃ report,
    fst (fst (runFuzzerWithRuntime example_ReadDir example_Join "corpus" success_runtime []))
      = Returned (report, None)
    ∧ map ER.FileName (Results report)
      = ["01_valid_module.wasm"; "09_unreachable_trap.wasm"].
Proof.
  destruct (file_names_are_entry_names example_ReadDir example_Join success_runtime
              "corpus" [] _ eq_refl)
    as (report & w' & tr & Hrun & Hnames).
  { repeat constructor. }
  exists report. rewrite Hrun. split; [reflexivity|]. exact Hnames.
Defined.

(** X8.  A panic of the deferred [Close] masks what came before it.  If
    [Execute] panicked, or the classification of the error it returned
    did (on a nil [*RuntimeError]), the panic recovered and reported is
    the one of [Close], and the earlier one is never recovered; if
    [Execute] had returned values, the result is a failure that still
    carries them. *)
Theorem close_panic_masks {W M : Type} (runtime : WasmRuntime W M)
    (filePath : string) (w : W) (m : M) (w1 w2 w3 : W) (v : panic_value)
    (ex : outcome (list value * option error)) :
  LoadModule runtime filePath w = (Returned (Some m, None), w1) →
  Execute runtime m "process" [int32 1] w1 = (ex, w2) →
  Close runtime m w2 = (Panicked v, w3) →
  ∃ result tr,
    processWasmFileWithRuntime runtime filePath w = (Returned result, w3, tr)
    ∧ recovered_values tr = [v]
    ∧ ER.Success result = false
    ∧ ER.FailureStage result = StageExecute
    ∧ ER.ErrorMessage result = "panic recovered: " +:+ fmt_v v
    ∧ match ex with
      | Panicked v0 => raised_values tr = [v0; v] ∧ ER.ReturnValues result = []
      | Returned (returns, None) => raised_values tr = [v] ∧ ER.ReturnValues result = returns
      | Returned (_, Some err) =>
          raised_values tr = match errors_As err with
                             | Some None => [nil_dereference; v]
                             | _ => [v]
                             end
          ∧ ER.ReturnValues result = []
      end.
Proof.
  intros Hload Hexec Hclose.
  pose proof (process_loaded _ _ _ _ _ _ _ _ _ Hload Hexec Hclose) as Hrun.
  cbn zeta in Hrun. eexists _, _. split; [exact Hrun|]. unfold executed.
  destruct ex as [[returns [err|]]|v0]; [rewrite classify_spec|..];
    try destruct (errors_As err) as [[e|]|]; by split_and!.
Qed.

Lemma close_panic_masks_witness :
  ∃ result tr,
    processWasmFileWithRuntime values_then_faulty_close_runtime "/test/valid.wasm" []
      = (Returned result, [0%nat], tr)
    ∧ ER.ErrorMessage result = "panic recovered: close failed"
    ∧ ER.ReturnValues result = [int32 42].
Proof.
  destruct (close_panic_masks values_then_faulty_close_runtime "/test/valid.wasm" []
              0%nat [] [] [0%nat] (PanicString "close failed")
              (Returned ([int32 42], None)) eq_refl eq_refl eq_refl)
    as (result & tr & Hrun & _ & _ & _ & Hmsg & _ & Hvalues).
  exists result, tr. split; [exact Hrun|]. split; [exact Hmsg|exact Hvalues].
Defined.

(** X9.  A runtime whose [LoadModule] returns neither a module nor an
    error: the deferred [module.Close()] on the nil interface panics,
    the panic is recovered, [Execute] is never called, and the result
    is an [execute] failure that reports the nil dereference. *)
Theorem nil_module_is_an_execute_failure {W M : Type} (runtime : WasmRuntime W M)
    (filePath : string) (w w1 : W) :
  LoadModule runtime filePath w = (Returned (None, None), w1) →
  ∃ tr,
    processWasmFileWithRuntime runtime filePath w
      = (Returned (ER.mk filePath (filepath_Base filePath) false StageExecute
                         ("panic recovered: " +:+ fmt_v nil_dereference) []),
         w1, tr)
    ∧ calls_made tr = [CallLoadModule filePath]
    ∧ recovered_values tr = [nil_dereference].
Proof.
  intros Hload. eexists. split; [exact (process_load_nil _ _ _ _ Hload)|]. by split.
Qed.

Lemma nil_module_is_an_execute_failure_witness :
  ∃ tr,
    processWasmFileWithRuntime nil_module_runtime "/test/nil.wasm" []
      = (Returned (ER.mk "/test/nil.wasm" "nil.wasm" false StageExecute
           "panic recovered: runtime error: invalid memory address or nil pointer dereference"
           []), [], tr)
    ∧ calls_made tr = [CallLoadModule "/test/nil.wasm"].
Proof.
  destruct (nil_module_is_an_execute_failure nil_module_runtime "/test/nil.wasm" [] []
              eq_refl) as (tr & Hrun & Hcalls & _).
  exists tr. split; [exact Hrun|exact Hcalls].
Defined.



Section WrappedErrors.
Implicit Types (prefixes : list string) (err : error).

Lemma errors_As_wrap prefixes err : errors_As (wrap prefixes err) = errors_As err.
Proof. induction prefixes as [|p prefixes IH]; [done|]. exact IH. Qed.

Lemma Error_wrap prefixes err :
  Error (wrap prefixes err) = foldr String.append (Error err) prefixes.
Proof. induction prefixes as [|p prefixes IH]; [done|]. simpl. by rewrite IH. Qed.
End WrappedErrors.

(** X11.  Wrapping with [%w], any number of times, does not hide a
    [*RuntimeError] from the processor.  For an error that [LoadModule]
    returns wrapped: when the chain ends in a pointer to a
    [RuntimeError], the result gets its tag and its message and the
    text of the wrappers is dropped; when it ends in a nil
    [*RuntimeError], the classification panics and the result is the
    recovered panic, at stage [execute]; when it holds no
    [*RuntimeError], the result is a [load] failure whose message keeps
    the text of the wrappers after "load failed: ". *)
Theorem classification_sees_through_wrappers {W M : Type} (runtime : WasmRuntime W M)
    (filePath : string) (w : W) (module : option M) (prefixes : list string)
    (err : error) (w1 : W) :
  LoadModule runtime filePath w = (Returned (module, Some (wrap prefixes err)), w1) →
  let failure stage message := ER.mk filePath (filepath_Base filePath) false stage message [] in
  ∃ tr,
    processWasmFileWithRuntime runtime filePath w
    = (Returned
         match errors_As err with
         | Some (Some tagged) => failure (Stage tagged) (Message tagged)
         | Some None => failure StageExecute ("panic recovered: " +:+ fmt_v nil_dereference)
         | None =>
             failure StageLoad ("load failed: " +:+ foldr String.append (Error err) prefixes)
         end,
       w1, tr)
    ∧ raised_values tr = match errors_As err with
                         | Some None => [nil_dereference]
                         | _ => []
                         end.
Proof.
  intros Hload. pose proof (process_load_failed _ _ _ _ _ _ Hload) as Hrun.
  cbn zeta in Hrun. rewrite classify_spec, errors_As_wrap, Error_wrap in Hrun.
  cbn zeta. rewrite Hrun. destruct (errors_As err) as [[tagged|]|]; eexists; by split.
Qed.

(** A tagged error under two wrappers, and a nil [*RuntimeError] under
    one. *)
Lemma classification_sees_through_wrappers_witness :
  (∃ tr,
      processWasmFileWithRuntime wrapped_error_runtime "/test/wrapped.wasm" []
      = (Returned (ER.mk "/test/wrapped.wasm" "wrapped.wasm" false StageValidate
                         "unknown opcode 0xFE" []), [], tr))
  ∧ (∃ tr,
      processWasmFileWithRuntime wrapped_error_runtime "/test/nil_error.wasm" []
      = (Returned (ER.mk "/test/nil_error.wasm" "nil_error.wasm" false StageExecute
           "panic recovered: runtime error: invalid memory address or nil pointer dereference"
           []), [], tr)).
Proof.
  split.
  - destruct (classification_sees_through_wrappers wrapped_error_runtime
                "/test/wrapped.wasm" [] None ["load module: "; "decode: "] invalid_opcode
                [] eq_refl) as (tr & Hrun & _).
    exists tr. exact Hrun.
  - destruct (classification_sees_through_wrappers wrapped_error_runtime
                "/test/nil_error.wasm" [] None ["load module: "] RuntimeError_nil
                [] eq_refl) as (tr & Hrun & _).
    exists tr. exact Hrun.
Defined.

Section StubRuntime.
Context (os_ReadDir : string → list DirEntry * option error).
Context (filepath_Join : string → string → string).

(** One file under [NewWasmEdgeRuntime()]. *)
Lemma stub_runtime_file filePath w :
  processWasmFileWithRuntime NewWasmEdgeRuntime filePath w
  = (Returned (not_implemented_result filePath), w,
     [Call (CallLoadModule filePath);
      Call (CallExecute (mkWasmEdgeModule filePath) "process" [int32 1]);
      Call (CallClose (mkWasmEdgeModule filePath))]).
Proof. by destruct w. Qed.

Lemma count_results_none test results :
  Forall (λ r, test r = false) results → count_results test results = 0.
Proof.
  unfold count_results. induction 1 as [|r results Hr _ IH]; [done|]. simpl.
  by rewrite Hr.
Qed.

Lemma count_results_all test results :
  Forall (λ r, test r = true) results →
  count_results test results = Z.of_nat (length results).
Proof.
  unfold count_results. induction 1 as [|r results Hr _ IH]; [done|]. simpl.
  rewrite Hr. simpl. lia.
Qed.
End StubRuntime.

(** X12.  The runtime of the non-integration build, [NewWasmEdgeRuntime()]
    with the package variables as declared, fails every file at
    [execute] with the message of [executeWasmFunction]: every result
    of a batch is that failure, [passed] is 0, [failed] is
    [totalFiles], and so is [failureCounts] at [execute]. *)
Theorem stub_runtime_fails_every_file (os_ReadDir : string → list DirEntry * option error)
    (filepath_Join : string → string → string) (dirPath : string) :
  ∃ report err tr,
    runFuzzerWithRuntime os_ReadDir filepath_Join dirPath NewWasmEdgeRuntime ()
      = (Returned (report, err), (), tr)
    ∧ Forall (λ r, r = not_implemented_result (ER.FilePath r)) (Results report)
    ∧ Passed report = 0
    ∧ Failed report = Z.of_nat (length (Results report))
    ∧ default 0 (FailureCounts report !! StageExecute) = Z.of_nat (length (Results report)).
Proof.
  destruct (run_fuzzer_returns os_ReadDir filepath_Join
              (processWasmFileWithRuntime NewWasmEdgeRuntime) dirPath ()
              (processor_returns NewWasmEdgeRuntime))
    as (report & err & [] & tr & Hrun).
  exists report, err, tr. split; [exact Hrun|].
  destruct (run_fuzzer_results os_ReadDir filepath_Join _ _ _ _ _ _ _
              (processor_returns NewWasmEdgeRuntime) Hrun)
    as (files & trs & Hproc & _).
  assert (Forall (λ r, r = not_implemented_result (ER.FilePath r)) (Results report)) as Hall.
  { eapply processed_Forall; [|exact Hproc]. intros filePath wi result wi' t.
    rewrite stub_runtime_file. by intros [= <- _ _]. }
  assert (counts_exact report) as (Hpassed & Hfailed & Hcounts).
  { apply run_fuzzer_report in Hrun as [(_ & -> & _ & _)|(_ & files' & _ & Hloop)].
    - apply (initial_counts_exact 0).
    - eapply process_files_keeps; [|exact Hloop|apply initial_counts_exact].
      intros. by apply record_result_counts_exact. }
  destruct (Hcounts StageExecute) as [Hexec _].
  rewrite Hpassed, Hfailed, Hexec. split; [exact Hall|].
  split_and!.
  - apply count_results_none. eapply Forall_impl; [exact Hall|]. by intros r ->.
  - apply count_results_all. eapply Forall_impl; [exact Hall|]. by intros r ->.
  - apply count_results_all. eapply Forall_impl; [exact Hall|]. by intros r ->.
Qed.

Section PathFacts.
Implicit Types (s path stem rest name dir : string) (i j k n : nat).

Lemma substring_cons s i m c :
  String.get i s = Some c →
  String.substring i (S m) s = String c (String.substring (S i) m s).
Proof.
  revert i. induction s as [|a s IH]; intros i; [by destruct i|].
  destruct i as [|i]; simpl.
  - intros [= ->]. done.
  - intros Hget. by apply IH.
Qed.

Lemma get_substring s i m k c :
  String.get k (String.substring i m s) = Some c →
  (k < m)%nat ∧ String.get (k + i) s = Some c.
Proof.
  intros Hget. destruct (decide (k < m)%nat) as [Hlt|Hge].
  - split; [done|]. by rewrite <- (String.substring_correct1 s i m k Hlt).
  - rewrite String.substring_correct2 in Hget by lia. done.
Qed.

Lemma get_Some_lt s i c : String.get i s = Some c → (i < String.length s)%nat.
Proof.
  revert i. induction s as [|a s IH]; intros i; [by destruct i|].
  destruct i as [|i]; simpl; [lia|]. intros Hget. apply IH in Hget. lia.
Qed.

(** Where [Ext_loop] stops: at a dot, having passed neither a dot nor a
    separator. *)
Lemma Ext_loop_dot path n :
  Ext_loop path n ≠ "" →
  ∃ i, (i < n)%nat
       ∧ String.get i path = Some "."%char
       ∧ Ext_loop path n = String.substring i (String.length path - i) path
       ∧ ∀ j c, (i < j < n)%nat → String.get j path = Some c →
                IsPathSeparator c = false ∧ Ascii.eqb c "." = false.
Proof.
  induction n as [|m IH]; simpl; [done|].
  destruct (String.get m path) as [c|] eqn:Hget; [|done].
  destruct (IsPathSeparator c) eqn:Hsep; [done|].
  destruct (Ascii.eqb c ".") eqn:Hdot.
  - intros _. apply Ascii.eqb_eq in Hdot as ->. exists m. split_and!; [lia|done..|].
    intros j c' ?. lia.
  - intros Hne. destruct (IH Hne) as (i & Hi & Hdot_i & Heq & Hclean).
    exists i. split_and!; [lia|done..|].
    intros j c' Hj Hget'. destruct (decide (j = m)) as [->|?].
    + rewrite Hget in Hget'. by injection Hget' as <-.
    + apply (Hclean j); [lia|done].
Qed.

(** Where [last_element_start] stops: after the last separator. *)
Lemma last_element_start_spec path n :
  (n ≤ String.length path)%nat →
  (last_element_start path n ≤ n)%nat
  ∧ ∀ j c, (last_element_start path n ≤ j < n)%nat → String.get j path = Some c →
           IsPathSeparator c = false.
Proof.
  induction n as [|m IH]; intros Hn; simpl; [split; [lia|intros; lia]|].
  destruct IH as [IHle IH]; [lia|].
  destruct (get_in_range path m) as [c Hget]; [lia|]. rewrite Hget.
  destruct (IsPathSeparator c) eqn:Hsep; [split; [lia|intros; lia]|].
  split; [lia|]. intros j c' Hj Hget'. destruct (decide (j = m)) as [->|?].
  - rewrite Hget in Hget'. by injection Hget' as <-.
  - apply (IH j); [lia|done].
Qed.

Lemma last_element_start_found dir name k :
  no_separator name → (k ≤ String.length name)%nat →
  last_element_start (dir +:+ String "/" name) (String.length dir + S k)
  = S (String.length dir).
Proof.
  intros Hname. induction k as [|k IH]; intros Hk.
  - rewrite Nat.add_1_r. simpl.
    rewrite <- (Nat.add_0_r (String.length dir)) at 1.
    by rewrite get_append_right.
  - rewrite Nat.add_succ_r. simpl. rewrite get_append_right. simpl.
    destruct (get_in_range name k Hk) as [c Hget]. rewrite Hget.
    rewrite (Hname _ _ Hget). apply IH. lia.
Qed.

Lemma strip_trailing_none path :
  (∃ c, String.get (String.length path - 1) path = Some c ∧ IsPathSeparator c = false) →
  strip_trailing path (String.length path) = path.
Proof.
  intros (c & Hget & Hsep). destruct (String.length path) as [|n] eqn:Hlen.
  - apply get_Some_lt in Hget. lia.
  - simpl in *. rewrite Nat.sub_0_r in Hget. rewrite Hget, Hsep.
    rewrite <- Hlen. apply substring_all.
Qed.

(** The base name of [dir/name] is [name]. *)
Lemma filepath_Base_join dir name :
  name ≠ "" → no_separator name → filepath_Base (dir +:+ String "/" name) = name.
Proof.
  intros Hne Hname. unfold filepath_Base.
  assert (String.length name ≠ 0)%nat as Hlen by by destruct name.
  destruct (String.eqb_spec (dir +:+ String "/" name) "") as [Hempty|_].
  { by destruct dir. }
  rewrite strip_trailing_none.
  - rewrite length_append. simpl.
    rewrite (last_element_start_found dir name (String.length name) Hname) by lia.
    replace (String.length dir + S (String.length name) - S (String.length dir))%nat
      with (String.length name) by lia.
    assert (String.substring (S (String.length dir)) (String.length name)
                             (dir +:+ String "/" name) = name) as ->.
    { clear. induction dir as [|c dir IH]; simpl; [apply substring_all|apply IH]. }
    destruct (String.eqb_spec name "") as [?|_]; [congruence|reflexivity].
  - rewrite length_append. simpl.
    destruct (get_in_range name (String.length name - 1)) as [c Hget]; [lia|].
    exists c. split; [|by eapply Hname].
    replace (String.length dir + S (String.length name) - 1)%nat
      with (String.length dir + S (String.length name - 1))%nat by lia.
    by rewrite get_append_right.
Qed.

(** A base name is not empty, and holds no separator unless it is the
    root. *)
Lemma filepath_Base_element path :
  filepath_Base path ≠ ""
  ∧ (filepath_Base path = "/" ∨ no_separator (filepath_Base path)).
Proof.
  unfold filepath_Base.
  destruct (String.eqb_spec path "") as [_|_].
  { split; [done|]. right. unfold no_separator. intros [|[|j]] c; simpl; [|done..].
    by intros [= <-]. }
  set (p1 := strip_trailing path (String.length path)).
  set (i := last_element_start p1 (String.length p1)).
  destruct (String.eqb_spec (String.substring i (String.length p1 - i) p1) "") as [_|Hne].
  { split; [done|by left]. }
  split; [done|]. right. unfold no_separator. intros j c Hget.
  apply get_substring in Hget as [Hj Hget].
  destruct (last_element_start_spec p1 (String.length p1)) as [_ Hclean]; [lia|].
  apply (Hclean (j + i)%nat); [fold i; lia|done].
Qed.
End PathFacts.

(** X13.  [filepath.Ext], as [collectWasmFiles] uses it, is the suffix
    of the name from the last dot of its last element: for a [rest]
    without dot or separator the extension of [stem.rest] is [.rest],
    and every non-empty extension arises so.  A name such as
    [module.wasm.bak] therefore has extension [.bak], and a name whose
    last element has no dot has none. *)
Theorem extension_is_the_last_dot_suffix (path : string) :
  (∀ stem rest, no_separator_or_dot rest → path = stem +:+ String "." rest →
     filepath_Ext path = String "." rest)
  ∧ (filepath_Ext path = ""
     ∨ ∃ stem rest, no_separator_or_dot rest ∧ path = stem +:+ String "." rest
                    ∧ filepath_Ext path = String "." rest).
Proof.
  split.
  - intros stem rest Hrest ->. unfold filepath_Ext. rewrite length_append. simpl.
    by apply Ext_loop_found.
  - unfold filepath_Ext.
    destruct (decide (Ext_loop path (String.length path) = "")) as [?|Hne]; [by left|].
    right. destruct (Ext_loop_dot path _ Hne) as (i & Hi & Hdot & Heq & Hclean).
    exists (String.substring 0 i path),
           (String.substring (S i) (String.length path - S i) path).
    assert (String.substring i (String.length path - i) path
            = String "." (String.substring (S i) (String.length path - S i) path)) as Hsub.
    { replace (String.length path - i)%nat with (S (String.length path - S i)) by lia.
      by apply substring_cons. }
    split_and!.
    + intros j c Hget. apply get_substring in Hget as [Hj Hget].
      apply (Hclean (j + S i)%nat); [lia|done].
    + rewrite <- Hsub. apply substring_split. lia.
    + by rewrite Heq.
Qed.

Lemma extension_is_the_last_dot_suffix_witness :
  filepath_Ext "module.wasm.bak" = ".bak".
Proof.
  apply (proj1 (extension_is_the_last_dot_suffix "module.wasm.bak") "module.wasm" "bak");
    [|reflexivity].
  intros j c Hget. do 3 (destruct j as [|j]; [by injection Hget as <-|]). done.
Defined.

(** X14.  The [file_name] of a result is the last element of the path:
    it is never empty, it holds no separator unless it is the root [/],
    and for a path [dir/name], with [name] not empty and without
    separator, it is [name]. *)
Theorem file_name_is_the_last_element {W M : Type} (runtime : WasmRuntime W M)
    (filePath : string) (w : W) :
  ∃ result w' tr,
    processWasmFileWithRuntime runtime filePath w = (Returned result, w', tr)
    ∧ ER.FileName result ≠ ""
    ∧ (ER.FileName result = "/" ∨ no_separator (ER.FileName result))
    ∧ ∀ dir name, name ≠ "" → no_separator name → filePath = dir +:+ String "/" name →
        ER.FileName result = name.
Proof.
  destruct (processWasmFileWithRuntime_returns runtime filePath w)
    as (result & w' & tr & Hrun & _ & _ & Hname & _).
  exists result, w', tr. rewrite Hname.
  destruct (filepath_Base_element filePath) as [Hne Hsep].
  split_and!; [done..|]. intros dir name Hn Hclean ->. by apply filepath_Base_join.
Qed.

Lemma file_name_is_the_last_element_witness :
  ∃ result,
    fst (fst (processWasmFileWithRuntime success_runtime "/test/valid.wasm" []))
      = Returned result
    ∧ ER.FileName result = "valid.wasm".
Proof.
  destruct (file_name_is_the_last_element success_runtime "/test/valid.wasm" [])
    as (result & w' & tr & Hrun & _ & _ & Hname).
  exists result. rewrite Hrun. split; [reflexivity|].
  apply (Hname "/test" "valid.wasm"); [done| |reflexivity].
  intros j c Hget. do 10 (destruct j as [|j]; [by injection Hget as <-|]). done.
Defined.

Section MainFacts.
Context (os_Stat : string → option FileInfo * option error).
Context (os_ReadDir : string → list DirEntry * option error).
Context (filepath_Join : string → string → string).
Context {W : Type} (sdk : WasmEdge W).
Context (SetLogErrorLevel : W → outcome unit * W).
Context (stdout_Encode : FuzzingReport → option error).

Abbreviation main_here :=
  (main os_Stat os_ReadDir filepath_Join sdk SetLogErrorLevel stdout_Encode).

Lemma runFuzzer_returns dirPath w :
  ∃ report err w' tr,
    runFuzzer os_ReadDir filepath_Join sdk dirPath w = (Returned (report, err), w', tr)
    ∧ (is_Some err ↔ is_Some (snd (os_ReadDir dirPath))).
Proof.
  unfold runFuzzer.
  pose proof (run_fuzzer_spec os_ReadDir filepath_Join _
                (processWasmFile_always_returns sdk) dirPath w) as Hspec.
  destruct (os_ReadDir dirPath) as [entries [e|]]; simpl.
  - rewrite Hspec. eexists _, _, _, _. split; [reflexivity|]. split; eauto.
  - cbn zeta in Hspec. destruct Hspec as (report & w' & tr & Hrun & _).
    exists report, None, w', tr. split; [exact Hrun|]. split; by intros [? [=]].
Qed.

(** The streams against the exit code. *)
Lemma main_streams args w :
  let e := main_here args w in
  (exit_code e = 0 ∧ stderr e = [] ∧ ∃ report, stdout e = [Wrote report])
  ∨ (exit_code e = 1 ∧ (∃ line, stderr e = [line])
     ∧ (stdout e = [] ∨ ∃ report err, stdout e = [WriteFailed report err])).
Proof.
  cbn zeta. unfold main.
  destruct args as [|program [|dirPath rest]]; [right; simpl; eauto..|].
  destruct (os_Stat dirPath) as [[info|] [err|]];
    [destruct (Error_method err); right; simpl; eauto|
    |destruct (Error_method err); right; simpl; eauto
    |right; simpl; eauto].
  destruct (FileInfo_IsDir info); simpl; [|right; simpl; eauto].
  destruct (SetLogErrorLevel w) as [[[]|v] w1]; [|right; simpl; eauto].
  destruct (runFuzzer os_ReadDir filepath_Join sdk dirPath w1) as [[[[report [err|]]|v] w2] tr];
    [destruct (Error_method err); right; simpl; eauto| |right; simpl; eauto].
  destruct (stdout_Encode report) as [err|]; [right; simpl; eauto 10|left; simpl; eauto].
Qed.
End MainFacts.

(** X15.  [main] exits with 0 or 1.  It exits with 0 exactly when it
    wrote one report to the output stream and nothing to the error
    stream; when it exits with 1 it wrote exactly one line to the error
    stream, and no report was written successfully. *)
Theorem main_exit_code_and_streams
    (os_Stat : string → option FileInfo * option error)
    (os_ReadDir : string → list DirEntry * option error)
    (filepath_Join : string → string → string) {W : Type} (sdk : WasmEdge W)
    (SetLogErrorLevel : W → outcome unit * W)
    (stdout_Encode : FuzzingReport → option error) (args : list string) (w : W) :
  let e := main os_Stat os_ReadDir filepath_Join sdk SetLogErrorLevel stdout_Encode args w in
  (exit_code e = 0 ∨ exit_code e = 1)
  ∧ (exit_code e = 0 ↔ stderr e = [] ∧ ∃ report, stdout e = [Wrote report])
  ∧ (exit_code e = 1 →
       length (stderr e) = 1%nat ∧ ∀ report, Wrote report ∉ stdout e).
Proof.
  cbn zeta.
  destruct (main_streams os_Stat os_ReadDir filepath_Join sdk SetLogErrorLevel
              stdout_Encode args w)
    as [(Hcode & Herr & report & Hout)|(Hcode & (line & Herr) & Hout)];
    cbn zeta in *; rewrite Hcode, Herr.
  - split_and!; [by left| |done]. split; [eauto|done].
  - split_and!; [by right| |].
    + split; [done|]. by intros [[=] _].
    + intros _. split; [done|]. intros report.
      destruct Hout as [->|(r & err & ->)]; [apply not_elem_of_nil|].
      by intros [=]%list_elem_of_singleton.
Qed.

(** X16.  [main] exits with 0 iff it was given a path as its first
    argument, [os.Stat] reports that path as a directory,
    [SetLogErrorLevel] returns, the batch runner returns a report
    without error, and the report is encoded without error; the output
    stream then holds that report and nothing else is written. *)
Theorem main_succeeds_iff
    (os_Stat : string → option FileInfo * option error)
    (os_ReadDir : string → list DirEntry * option error)
    (filepath_Join : string → string → string) {W : Type} (sdk : WasmEdge W)
    (SetLogErrorLevel : W → outcome unit * W)
    (stdout_Encode : FuzzingReport → option error) (args : list string) (w : W) :
  let e := main os_Stat os_ReadDir filepath_Join sdk SetLogErrorLevel stdout_Encode args w in
  let accepted dirPath info w1 report w2 tr :=
    args !! 1%nat = Some dirPath
    ∧ os_Stat dirPath = (Some info, None)
    ∧ FileInfo_IsDir info = true
    ∧ SetLogErrorLevel w = (Returned (), w1)
    ∧ runFuzzer os_ReadDir filepath_Join sdk dirPath w1 = (Returned (report, None), w2, tr)
    ∧ stdout_Encode report = None in
  (exit_code e = 0 ↔ ∃ dirPath info w1 report w2 tr, accepted dirPath info w1 report w2 tr)
  ∧ (∀ dirPath info w1 report w2 tr,
       accepted dirPath info w1 report w2 tr → e = mkExit 0 [Wrote report] [] w2 tr).
Proof.
  cbn zeta. unfold main. split; [split|].
  - destruct args as [|program [|dirPath rest]]; [done..|].
    destruct (os_Stat dirPath) as [[info|] [err|]] eqn:Hstat;
      [by destruct (Error_method err)| |by destruct (Error_method err)|done].
    destruct (FileInfo_IsDir info) eqn:Hdir; simpl; [|done].
    destruct (SetLogErrorLevel w) as [[[]|v] w1] eqn:Hlog; [|done].
    destruct (runFuzzer os_ReadDir filepath_Join sdk dirPath w1)
      as [[[[report [err|]]|v] w2] tr] eqn:Hrun;
      [by destruct (Error_method err)| |done].
    destruct (stdout_Encode report) as [err|] eqn:Henc; [done|].
    intros _. by exists dirPath, info, w1, report, w2, tr.
  - intros (dirPath & info & w1 & report & w2 & tr & Harg & Hstat & Hdir & Hlog & Hrun
            & Henc).
    destruct args as [|program [|dirPath' rest]]; [done..|].
    injection Harg as ->. by rewrite Hstat, Hdir, Hlog, Hrun, Henc.
  - intros dirPath info w1 report w2 tr (Harg & Hstat & Hdir & Hlog & Hrun & Henc).
    destruct args as [|program [|dirPath' rest]]; [done..|].
    injection Harg as ->. by rewrite Hstat, Hdir, Hlog, Hrun, Henc.
Qed.

Lemma main_succeeds_iff_witness :
  exit_code (main example_Stat example_ReadDir example_Join valid_module_engine
               (λ w, (Returned (), w)) (λ _, None) ["wasm-fuzzer"; "corpus"] ()) = 0.
Proof.
  apply (proj1 (main_succeeds_iff example_Stat example_ReadDir example_Join
                  valid_module_engine (λ w, (Returned (), w)) (λ _, None)
                  ["wasm-fuzzer"; "corpus"] ())).
  destruct (runFuzzer example_ReadDir example_Join valid_module_engine "corpus" ())
    as [[[[report [err|]]|v] w2] tr] eqn:Hrun; [by vm_compute in Hrun| |by vm_compute in Hrun].
  exists "corpus", (mkFileInfo true), (), report, w2, tr.
  split; [reflexivity|]. split; [reflexivity|]. split; [reflexivity|].
  split; [reflexivity|]. split; [exact Hrun|reflexivity].
Defined.

(** X17.  [main] leaves the engine alone unless it was given a path that
    [os.Stat] reports as a directory: otherwise it makes no call on the
    SDK, not even [SetLogErrorLevel], and the state of the engine is
    unchanged. *)
Theorem main_touches_the_engine_only_for_a_directory
    (os_Stat : string → option FileInfo * option error)
    (os_ReadDir : string → list DirEntry * option error)
    (filepath_Join : string → string → string) {W : Type} (sdk : WasmEdge W)
    (SetLogErrorLevel : W → outcome unit * W)
    (stdout_Encode : FuzzingReport → option error) (args : list string) (w : W) :
  let e := main os_Stat os_ReadDir filepath_Join sdk SetLogErrorLevel stdout_Encode args w in
  (∃ dirPath info,
      args !! 1%nat = Some dirPath
      ∧ os_Stat dirPath = (Some info, None)
      ∧ FileInfo_IsDir info = true)
  ∨ (exit_state e = w ∧ exit_trace e = [] ∧ exit_code e = 1 ∧ stdout e = []).
Proof.
  cbn zeta. unfold main.
  destruct args as [|program [|dirPath rest]]; [by right..|].
  destruct (os_Stat dirPath) as [[info|] [err|]] eqn:Hstat;
    [right; by destruct (Error_method err)| |right; by destruct (Error_method err)|by right].
  destruct (FileInfo_IsDir info) eqn:Hdir; simpl; [|by right].
  left. by exists dirPath, info.
Qed.
